(** * express-auto-crud: the endpoint generator [autoCRUD]

    A shallow embedding of [autoCRUD(app, model, baseRoute, options)]:
    the normalisation of the options, the query-parameter helpers
    ([buildFilter], [applySort], page and limit resolution) and the five
    request handlers, followed by the properties of the specification.

    Modelling conventions.
    - JavaScript objects used as dictionaries ([req.query], the filter) are
      finite maps of their own properties.
    - A query-string value is a string or, for a repeated key, an array of
      strings.
    - Numbers are the integers that are finite IEEE doubles, as [Z]; what
      [parseInt] returns and what the subtraction and the product of the skip
      offset return is rounded to the nearest double.  [NaN] is a separate
      outcome of [parseInt].  Counts returned by the accessor are safe
      integers.  Fractional options are outside the model.
    - Asynchronous calls are run in program order; an accessor operation or a
      user callback is a transformer of an abstract world that returns, or
      throws before returning a promise, or returns a promise that rejects,
      and every invocation is recorded in a log.
    - A thrown value is [null] or [undefined], or a value with an optional
      string [message].  A handler whose [catch] block throws sends no
      response.
    - Middleware chains are run by the router before a handler and are not
      part of it. *)

From Stdlib Require Import ZArith Lia Ascii.
From stdpp Require Import base gmap strings list fin_maps.

Local Open Scope string_scope.
Local Open Scope Z_scope.

(** ** JavaScript values and the operators the options go through *)

(** A value of [req.query]. *)
Inductive qvalue :=
| QStr (s : string)
| QArr (l : list string).

Module JS.

Inductive value :=
| VUndefined
| VNull
| VBool (b : bool)
| VNum (n : Z)
| VNaN
| VStr (s : string)
| VObject.

(** ToBoolean *)
Definition truthy (v : value) : bool :=
  match v with
  | VUndefined | VNull | VNaN => false
  | VBool b => b
  | VNum n => negb (n =? 0)%Z
  | VStr s => negb (String.eqb s "")
  | VObject => true
  end.

(** [a || b] *)
Definition or (a b : value) : value := if truthy a then a else b.

(** [a !== false] *)
Definition strict_neq_false (a : value) : bool :=
  match a with
  | VBool false => false
  | _ => true
  end.

(** *** parseInt(string) with no radix argument *)

Definition is_white (c : Ascii.ascii) : bool :=
  let n := Ascii.nat_of_ascii c in
  ((n =? 32) || (n =? 9) || (n =? 10) || (n =? 11) || (n =? 12) || (n =? 13))%nat.

Fixpoint skip_white (s : string) : string :=
  match s with
  | String c r => if is_white c then skip_white r else s
  | EmptyString => s
  end.

(** The value of a character as a digit, for radixes up to 36. *)
Definition digit_of (c : Ascii.ascii) : option Z :=
  let n := Z.of_nat (Ascii.nat_of_ascii c) in
  if (48 <=? n) && (n <=? 57) then Some (n - 48)
  else if (97 <=? n) && (n <=? 122) then Some (n - 87)
  else if (65 <=? n) && (n <=? 90) then Some (n - 55)
  else None.

(** Reads the longest prefix of radix-[R] digits; [acc] is [None] until a
    digit has been read. *)
Fixpoint read_digits (R : Z) (s : string) (acc : option Z) : option Z :=
  match s with
  | String c r =>
      match digit_of c with
      | Some d =>
          if d <? R then read_digits R r (Some (default 0 acc * R + d))
          else acc
      | None => acc
      end
  | EmptyString => acc
  end.

(** The double nearest to the integer [z], ties to even; integers below
    [2^53] in magnitude are doubles.  Magnitudes from [2^1024] on, which
    round to [Infinity], are outside the model. *)
Definition round_double (z : Z) : Z :=
  let a := Z.abs z in
  if a <? 2 ^ 53 then z
  else
    let e := Z.log2 a - 52 in
    let q := a / 2 ^ e in
    let r := a mod 2 ^ e in
    let half := 2 ^ (e - 1) in
    let q' := if (half <? r) || ((r =? half) && Z.odd q) then q + 1 else q in
    Z.sgn z * (q' * 2 ^ e).

(** [a - b] and [a * b] on doubles that are integers. *)
Definition sub (a b : Z) : Z := round_double (a - b).

Definition mul (a b : Z) : Z := round_double (a * b).

(** [None] stands for NaN. *)
Definition parseInt (input : string) : option Z :=
  let s := skip_white input in
  let '(sign, s) :=
    match s with
    | String "-"%char r => (-1, r)
    | String "+"%char r => (1, r)
    | _ => (1, s)
    end in
  let '(R, s) :=
    match s with
    | String "0"%char (String "x"%char r) => (16, r)
    | String "0"%char (String "X"%char r) => (16, r)
    | _ => (10, s)
    end in
  match read_digits R s None with
  | Some n => Some (round_double (sign * n))
  | None => None
  end.

(** ToString of a query parameter that may be missing; an array is its
    elements joined by commas. *)
Definition to_string (o : option qvalue) : string :=
  match o with
  | Some (QStr s) => s
  | Some (QArr l) => String.concat "," l
  | None => "undefined"
  end.

(** [parseInt(x) || d] for a number [d]: NaN and 0 are falsy. *)
Definition num_or (p : option Z) (d : Z) : Z :=
  match p with
  | Some n => if (n =? 0)%Z then d else n
  | None => d
  end.

(** [Math.ceil(a / b)] for integers with [b <> 0].  For a safe integer [a]
    the quotient on doubles is within [1 / |b|] of the exact one, so its
    ceiling is the exact ceiling. *)
Definition ceil_div (a b : Z) : Z := - ((- a) / b).

(** [s.replace(/^-/, '')] *)
Definition strip_minus (s : string) : string :=
  match s with
  | String "-"%char r => r
  | _ => s
  end.

(** [l.includes(x)] on an array of strings *)
Definition includes (l : list string) (x : string) : bool :=
  bool_decide (x ∈ l).

(** Truthiness of a string that may be undefined. *)
Definition str_truthy (o : option string) : bool :=
  match o with
  | Some s => negb (String.eqb s "")
  | None => false
  end.

End JS.

(** ** Requests, callbacks, the resource accessor and responses *)

(** What a failing call throws: [null] or [undefined], or a value with its
    [message] property, [None] when it has none. *)
Inductive thrown :=
| Nullish
| Exception (message : option string).

(** The outcome of a call: it returns, or it throws; [sync] tells a call that
    throws before returning a promise from one whose promise rejects. *)
Inductive outcome (A : Type) :=
| Returned (a : A)
| Thrown (sync : bool) (e : thrown).
Arguments Returned {A} a.
Arguments Thrown {A} sync e.

(** [error.message || fallback]; reading [message] off [null] or
    [undefined] throws, which is [None]. *)
Definition message_or (e : thrown) (fallback : string) : option string :=
  match e with
  | Nullish => None
  | Exception message =>
      Some (if JS.str_truthy message then default fallback message else fallback)
  end.

(** An awaited call: it transforms the world and returns or throws. *)
Definition effect (W A : Type) := W -> outcome A * W.

Record request (Data : Type) := Request {
  query : gmap string qvalue;
  params_id : option string;
  body : Data
}.
Arguments Request {Data} query params_id body.
Arguments query {Data} r.
Arguments params_id {Data} r.
Arguments body {Data} r.

(** The query builder of the accessor: [find] or [findById] followed by the
    chained [sort], [populate], [skip] and [limit]. *)
Inductive conditions :=
| Where (filter : gmap string qvalue)
| ById (id : string).

Record Query := {
  q_conditions : conditions;
  q_projection : gmap string Z;
  q_sort : option string;
  q_populate : list string;
  q_skip : option Z;
  q_limit : option Z
}.

Definition find (filter : gmap string qvalue) (projection : gmap string Z) : Query :=
  {| q_conditions := Where filter; q_projection := projection; q_sort := None;
     q_populate := []; q_skip := None; q_limit := None |}.

Definition findById (id : string) (projection : gmap string Z) : Query :=
  {| q_conditions := ById id; q_projection := projection; q_sort := None;
     q_populate := []; q_skip := None; q_limit := None |}.

Definition Query_sort (q : Query) (spec : string) : Query :=
  {| q_conditions := q_conditions q; q_projection := q_projection q;
     q_sort := Some spec; q_populate := q_populate q;
     q_skip := q_skip q; q_limit := q_limit q |}.

Definition Query_populate (q : Query) (field : string) : Query :=
  {| q_conditions := q_conditions q; q_projection := q_projection q;
     q_sort := q_sort q; q_populate := q_populate q ++ [field];
     q_skip := q_skip q; q_limit := q_limit q |}.

Definition Query_skip (q : Query) (n : Z) : Query :=
  {| q_conditions := q_conditions q; q_projection := q_projection q;
     q_sort := q_sort q; q_populate := q_populate q;
     q_skip := Some n; q_limit := q_limit q |}.

Definition Query_limit (q : Query) (n : Z) : Query :=
  {| q_conditions := q_conditions q; q_projection := q_projection q;
     q_sort := q_sort q; q_populate := q_populate q;
     q_skip := q_skip q; q_limit := Some n |}.

(** The third argument of [findByIdAndUpdate]. *)
Record update_options := { new : bool; runValidators : bool }.

Record PaginationResult := {
  total : Z;
  page : Z;
  pr_limit : Z;
  totalPages : Z;
  hasNextPage : bool
}.

Section Handlers.

Context {W Data Doc : Type}.

Record hooks := {
  beforeCreate : option (request Data -> Data -> effect W Data);
  afterCreate : option (request Data -> Doc -> effect W Doc);
  beforeUpdate : option (request Data -> Data -> effect W Data);
  afterUpdate : option (request Data -> Doc -> effect W Doc);
  beforeDelete : option (request Data -> string -> effect W unit);
  afterDelete : option (request Data -> string -> effect W unit)
}.

Definition no_hooks : hooks :=
  {| beforeCreate := None; afterCreate := None; beforeUpdate := None;
     afterUpdate := None; beforeDelete := None; afterDelete := None |}.

(** The [model] argument. *)
Record accessor := {
  exec_find : Query -> effect W (list Doc);
  exec_findById : Query -> effect W (option Doc);
  countDocuments : gmap string qvalue -> effect W Z;
  create : Data -> effect W Doc;
  findByIdAndUpdate : string -> Data -> update_options -> effect W (option Doc);
  findByIdAndDelete : string -> effect W (option Doc)
}.

(** The JSON bodies the handlers send. *)
Inductive json_body :=
| ErrorBody (error : bool) (message : string)
| ListBody (data : list Doc) (pagination : option PaginationResult)
| DocBody (doc : Doc)
| DeletedBody (success : bool) (message : string) (id : string).

Record response := { status : Z; json : json_body }.

(** Every invocation of the accessor, of the validator and of a hook. *)
Inductive call :=
| CallValidateBody (data : Data)
| CallBeforeCreate (data : Data)
| CallAfterCreate (doc : Doc)
| CallBeforeUpdate (data : Data)
| CallAfterUpdate (doc : Doc)
| CallBeforeDelete (id : string)
| CallAfterDelete (id : string)
| CallExec (q : Query)
| CallCountDocuments (filter : gmap string qvalue)
| CallCreate (data : Data)
| CallFindByIdAndUpdate (id : string) (data : Data) (o : update_options)
| CallFindByIdAndDelete (id : string).

Record state := { world : W; log : list call }.

(** ** The options and their normalisation *)

Record pagination_options := {
  po_enabled : JS.value;
  po_defaultLimit : JS.value;
  po_maxLimit : JS.value
}.

Record sort_options := {
  so_default : JS.value;
  so_allowed : option (list string)
}.

Record filter_options := {
  fo_enabled : JS.value;
  fo_allowed : option (list string)
}.

Record options := {
  o_pagination : option pagination_options;
  o_sort : option sort_options;
  o_filter : option filter_options;
  o_projection : option (gmap string Z);
  o_populate : option (list string);
  o_validateBody : option (Data -> effect W JS.value);
  o_hooks : option hooks
}.

(** [options = {}] *)
Definition no_options : options :=
  {| o_pagination := None; o_sort := None; o_filter := None;
     o_projection := None; o_populate := None; o_validateBody := None;
     o_hooks := None |}.

(** The record [opts]; [N] is the type of the two limits and [S] the type of
    the default sort, which the [||] operator leaves as it finds them. *)
Record settings (N S : Type) := {
  pagination_enabled : bool;
  pagination_defaultLimit : N;
  pagination_maxLimit : N;
  sort_default : S;
  sort_allowed : list string;
  filter_enabled : bool;
  filter_allowed : list string;
  projection : gmap string Z;
  populate_fields : list string;
  validateBody : option (Data -> effect W JS.value);
  opts_hooks : hooks
}.
Arguments pagination_enabled {N S} s.
Arguments pagination_defaultLimit {N S} s.
Arguments pagination_maxLimit {N S} s.
Arguments sort_default {N S} s.
Arguments sort_allowed {N S} s.
Arguments filter_enabled {N S} s.
Arguments filter_allowed {N S} s.
Arguments projection {N S} s.
Arguments populate_fields {N S} s.
Arguments validateBody {N S} s.
Arguments opts_hooks {N S} s.

(** [o?.f]: undefined when [o] is missing. *)
Definition opt_chain {A : Type} (o : option A) (f : A -> JS.value) : JS.value :=
  match o with
  | Some a => f a
  | None => JS.VUndefined
  end.

Definition normalize (o : options) : settings JS.value JS.value :=
  {| pagination_enabled := JS.strict_neq_false (opt_chain (o_pagination o) po_enabled);
     pagination_defaultLimit := JS.or (opt_chain (o_pagination o) po_defaultLimit) (JS.VNum 20);
     pagination_maxLimit := JS.or (opt_chain (o_pagination o) po_maxLimit) (JS.VNum 100);
     sort_default := JS.or (opt_chain (o_sort o) so_default) (JS.VStr "-createdAt");
     sort_allowed := default [] (o_sort o ≫= so_allowed);
     filter_enabled := JS.strict_neq_false (opt_chain (o_filter o) fo_enabled);
     filter_allowed := default [] (o_filter o ≫= fo_allowed);
     projection := default ∅ (o_projection o);
     populate_fields := default [] (o_populate o);
     validateBody := o_validateBody o;
     opts_hooks := default no_hooks (o_hooks o) |}.

(** The settings the handlers compute with: the limits are numbers and the
    default sort is a string, as [AutoCrudOptions] declares them. *)
Definition config := settings Z string.

Definition typed (s : settings JS.value JS.value) : option config :=
  match pagination_defaultLimit s, pagination_maxLimit s, sort_default s with
  | JS.VNum d, JS.VNum m, JS.VStr srt =>
      Some {| pagination_enabled := pagination_enabled s;
              pagination_defaultLimit := d;
              pagination_maxLimit := m;
              sort_default := srt;
              sort_allowed := sort_allowed s;
              filter_enabled := filter_enabled s;
              filter_allowed := filter_allowed s;
              projection := projection s;
              populate_fields := populate_fields s;
              validateBody := validateBody s;
              opts_hooks := opts_hooks s |}
  | _, _, _ => None
  end.

(** ** The handlers

    [model] and [opts] are the variables the handlers close over. *)

Variable model : accessor.
Variable opts : config.

(** A handler body: it may throw, and it threads the world and the log. *)
Definition M (A : Type) : Type := state -> outcome A * state.

#[local] Instance M_ret : MRet M := fun A a s => (Returned a, s).

#[local] Instance M_bind : MBind M := fun A B k m s =>
  match m s with
  | (Returned a, s') => k a s'
  | (Thrown sync e, s') => (Thrown sync e, s')
  end.

(** A computation that touches neither the world nor the log. *)
Definition lift {A : Type} (r : outcome A) : M A := fun s => (r, s).

(** Invokes [f] on the world and records the call. *)
Definition invoke {A : Type} (c : call) (f : effect W A) : M A := fun s =>
  let '(r, w) := f (world s) in
  (r, {| world := w; log := log s ++ [c] |}).

(** [try { body } catch (error) { handler(error) }] at the end of an async
    handler: the response sent, or [None] when [handler] itself throws and
    nothing is sent. *)
Definition try_catch (body : M response) (handler : thrown -> option response)
  : state -> option response * state := fun s =>
  match body s with
  | (Returned r, s') => (Some r, s')
  | (Thrown _ e, s') => (handler e, s')
  end.

(** [await Promise.all([a, b])]: the array is evaluated from left to right,
    so [b] is called after [a] has returned its promise and not at all when
    [a] throws before returning one; a call that throws while the array is
    evaluated throws out of the whole expression.  When both promises
    reject, [left_rejects_first] says whose rejection settles the combined
    promise. *)
Definition promise_all {A B : Type} (left_rejects_first : bool)
    (a : M A) (b : M B) : M (A * B) := fun s =>
  let '(ra, s1) := a s in
  match ra with
  | Thrown true e => (Thrown true e, s1)
  | _ =>
      let '(rb, s2) := b s1 in
      match ra, rb with
      | _, Thrown true e => (Thrown true e, s2)
      | Returned x, Returned y => (Returned (x, y), s2)
      | Thrown _ e, Returned _ => (Thrown false e, s2)
      | Returned _, Thrown _ e => (Thrown false e, s2)
      | Thrown _ ea, Thrown _ eb =>
          (Thrown false (if left_rejects_first then ea else eb), s2)
      end
  end.

Definition reserved_keys : list string := ["page"; "limit"; "sort"].

(** [filter[key] = val] on an object created by [{}]: the key [__proto__]
    names the prototype accessor, so assigning to it adds no property. *)
Definition assign (filter : gmap string qvalue) (key : string) (val : qvalue)
  : gmap string qvalue :=
  if String.eqb key "__proto__" then filter else <[key := val]> filter.

Definition buildFilter (query : gmap string qvalue) : gmap string qvalue :=
  if negb (filter_enabled opts) then ∅
  else
    map_fold (fun key val filter =>
      if JS.includes reserved_keys key then filter
      else if (length (filter_allowed opts) =? 0)%nat
              || JS.includes (filter_allowed opts) key
           then assign filter key val
           else filter) ∅ query.

(** An array has no [replace] method: calling it throws a TypeError. *)
Definition applySort (query : gmap string qvalue) : outcome string :=
  match query !! "sort" with
  | Some (QStr requested) =>
      if negb (String.eqb requested "") then
        let sortField := JS.strip_minus requested in
        if (0 <? length (sort_allowed opts))%nat
           && negb (JS.includes (sort_allowed opts) sortField)
        then Returned (sort_default opts)
        else Returned requested
      else Returned (sort_default opts)
  | Some (QArr _) =>
      Thrown true (Exception (Some "query.sort.replace is not a function"))
  | None => Returned (sort_default opts)
  end.

(** [res.status(status).json({ error: true, message })]; the callers that
    leave [status] out get 500. *)
Definition errorResponse (message : string) (status : Z) : response :=
  {| status := status; json := ErrorBody true message |}.

(** [errorResponse(res, error.message || fallback, status)] in a [catch]
    block. *)
Definition catch_response (fallback : string) (status : Z) (error : thrown)
  : option response :=
  match message_or error fallback with
  | Some message => Some (errorResponse message status)
  | None => None
  end.

(** [Math.max(1, parseInt(req.query.page) || 1)] *)
Definition resolve_page (query : gmap string qvalue) : Z :=
  Z.max 1 (JS.num_or (JS.parseInt (JS.to_string (query !! "page"))) 1).

(** [Math.min(opts.pagination.maxLimit,
              parseInt(req.query.limit) || opts.pagination.defaultLimit)] *)
Definition resolve_limit (query : gmap string qvalue) : Z :=
  Z.min (pagination_maxLimit opts)
        (JS.num_or (JS.parseInt (JS.to_string (query !! "limit")))
                   (pagination_defaultLimit opts)).

Definition apply_populate (q : Query) : Query :=
  if (0 <? length (populate_fields opts))%nat
  then foldl Query_populate q (populate_fields opts)
  else q.

(** Route 1: LIST *)
Definition list_handler (left_rejects_first : bool) (req : request Data)
  : state -> option response * state :=
  try_catch
    (let page := resolve_page (query req) in
     let limit := resolve_limit (query req) in
     let filter := buildFilter (query req) in
     sort ← lift (applySort (query req));
     let skip := JS.mul (JS.sub page 1) limit in
     let q := apply_populate (Query_sort (find filter (projection opts)) sort) in
     let windowed :=
       if pagination_enabled opts then Query_limit (Query_skip q skip) limit else q in
     '(data, total) ← promise_all left_rejects_first
         (invoke (CallExec windowed) (exec_find model windowed))
         (invoke (CallCountDocuments filter) (countDocuments model filter));
     if pagination_enabled opts then
       let totalPages := JS.ceil_div total limit in
       mret {| status := 200;
               json := ListBody data (Some
                 {| total := total; page := page; pr_limit := limit;
                    totalPages := totalPages;
                    hasNextPage := page <? totalPages |}) |}
     else
       mret {| status := 200; json := ListBody data None |})
    (catch_response "Failed to fetch documents" 500).

(** Route 2: GET ONE *)
Definition get_one_handler (req : request Data)
  : state -> option response * state :=
  try_catch
    (if negb (JS.str_truthy (params_id req)) then
       mret (errorResponse "ID is required" 400)
     else
       let id := default "" (params_id req) in
       let q := apply_populate (findById id (projection opts)) in
       doc ← invoke (CallExec q) (exec_findById model q);
       match doc with
       | None => mret (errorResponse "Document not found" 404)
       | Some d => mret {| status := 200; json := DocBody d |}
       end)
    (catch_response "Failed to fetch document" 500).

(** Route 3: CREATE *)
Definition create_handler (req : request Data)
  : state -> option response * state :=
  try_catch
    (let data := body req in
     isValid ← match validateBody opts with
               | Some validate =>
                   v ← invoke (CallValidateBody data) (validate data);
                   mret (JS.truthy v)
               | None => mret true
               end;
     if negb isValid then mret (errorResponse "Validation failed" 400)
     else
       data ← match beforeCreate (opts_hooks opts) with
              | Some hook => invoke (CallBeforeCreate data) (hook req data)
              | None => mret data
              end;
       doc ← invoke (CallCreate data) (create model data);
       doc ← match afterCreate (opts_hooks opts) with
             | Some hook => invoke (CallAfterCreate doc) (hook req doc)
             | None => mret doc
             end;
       mret {| status := 201; json := DocBody doc |})
    (catch_response "Failed to create document" 400).

(** Route 4: UPDATE *)
Definition update_handler (req : request Data)
  : state -> option response * state :=
  try_catch
    (let data := body req in
     if negb (JS.str_truthy (params_id req)) then
       mret (errorResponse "ID is required" 400)
     else
       let id := default "" (params_id req) in
       data ← match beforeUpdate (opts_hooks opts) with
              | Some hook => invoke (CallBeforeUpdate data) (hook req data)
              | None => mret data
              end;
       let o := {| new := true; runValidators := true |} in
       doc ← invoke (CallFindByIdAndUpdate id data o)
                    (findByIdAndUpdate model id data o);
       match doc with
       | None => mret (errorResponse "Document not found" 404)
       | Some doc =>
           doc ← match afterUpdate (opts_hooks opts) with
                 | Some hook => invoke (CallAfterUpdate doc) (hook req doc)
                 | None => mret doc
                 end;
           mret {| status := 200; json := DocBody doc |}
       end)
    (catch_response "Failed to update document" 400).

(** Route 5: DELETE *)
Definition delete_handler (req : request Data)
  : state -> option response * state :=
  try_catch
    (if negb (JS.str_truthy (params_id req)) then
       mret (errorResponse "ID is required" 400)
     else
       let id := default "" (params_id req) in
       _ ← match beforeDelete (opts_hooks opts) with
           | Some hook => invoke (CallBeforeDelete id) (hook req id)
           | None => mret tt
           end;
       doc ← invoke (CallFindByIdAndDelete id) (findByIdAndDelete model id);
       match doc with
       | None => mret (errorResponse "Document not found" 404)
       | Some _ =>
           _ ← match afterDelete (opts_hooks opts) with
               | Some hook => invoke (CallAfterDelete id) (hook req id)
               | None => mret tt
               end;
           mret {| status := 200;
                   json := DeletedBody true "Document deleted successfully" id |}
       end)
    (catch_response "Failed to delete document" 500).

End Handlers.

Arguments hooks : clear implicits.
Arguments accessor : clear implicits.
Arguments json_body : clear implicits.
Arguments response : clear implicits.
Arguments call : clear implicits.
Arguments state : clear implicits.
Arguments options : clear implicits.
Arguments settings : clear implicits.
Arguments config : clear implicits.
Arguments pagination_enabled {W Data Doc N S} s.
Arguments pagination_defaultLimit {W Data Doc N S} s.
Arguments pagination_maxLimit {W Data Doc N S} s.
Arguments sort_default {W Data Doc N S} s.
Arguments sort_allowed {W Data Doc N S} s.
Arguments filter_enabled {W Data Doc N S} s.
Arguments filter_allowed {W Data Doc N S} s.
Arguments projection {W Data Doc N S} s.
Arguments populate_fields {W Data Doc N S} s.
Arguments validateBody {W Data Doc N S} s.
Arguments opts_hooks {W Data Doc N S} s.

(** ** Registration *)

(** The five handlers [autoCRUD] binds to GET, GET /:id, POST, PUT /:id and
    DELETE /:id of [baseRoute]. *)
Record routes (W Data Doc : Type) := {
  route_list : bool -> request Data -> state W Data Doc
               -> option (response Doc) * state W Data Doc;
  route_get_one : request Data -> state W Data Doc
                  -> option (response Doc) * state W Data Doc;
  route_create : request Data -> state W Data Doc
                 -> option (response Doc) * state W Data Doc;
  route_update : request Data -> state W Data Doc
                 -> option (response Doc) * state W Data Doc;
  route_delete : request Data -> state W Data Doc
                 -> option (response Doc) * state W Data Doc
}.

(** [None] when an option is not of its declared type. *)
Definition autoCRUD {W Data Doc : Type} (model : accessor W Data Doc)
    (o : options W Data Doc) : option (routes W Data Doc) :=
  match typed (normalize o) with
  | Some opts =>
      Some {| route_list := list_handler model opts;
              route_get_one := get_one_handler model opts;
              route_create := create_handler model opts;
              route_update := update_handler model opts;
              route_delete := delete_handler model opts |}
  | None => None
  end.

(** ** Middleware chains and the route table *)

Inductive verb := GET | POST | PUT | DELETE.

Inductive endpoint := ListRoute | GetOneRoute | CreateRoute | UpdateRoute | DeleteRoute.

(** [options.middleware]; [H] is the type of a request handler. *)
Record middleware_options (H : Type) := {
  mw_list : option (list H);
  mw_getOne : option (list H);
  mw_create : option (list H);
  mw_update : option (list H);
  mw_delete : option (list H);
  mw_all : option (list H)
}.
Arguments mw_list {H} m.
Arguments mw_getOne {H} m.
Arguments mw_create {H} m.
Arguments mw_update {H} m.
Arguments mw_delete {H} m.
Arguments mw_all {H} m.

(** [options.middleware || {}] *)
Definition normalize_middleware {H : Type} (o : option (middleware_options H))
  : middleware_options H :=
  default {| mw_list := None; mw_getOne := None; mw_create := None;
             mw_update := None; mw_delete := None; mw_all := None |} o.

(** [[...(opts.middleware.all || []), ...(specific || [])]] *)
Definition getMiddlewares {H : Type} (mw : middleware_options H)
    (specific : option (list H)) : list H :=
  (default [] (mw_all mw) ++ default [] specific)%list.

(** One call of [app.get], [app.post], [app.put] or [app.delete]. *)
Record registration (H : Type) := {
  reg_verb : verb;
  reg_path : string;
  reg_chain : list H;
  reg_endpoint : endpoint
}.
Arguments reg_verb {H} r.
Arguments reg_path {H} r.
Arguments reg_chain {H} r.
Arguments reg_endpoint {H} r.

(** The five registrations of [autoCRUD], in program order. *)
Definition registrations {H : Type} (baseRoute : string)
    (o : option (middleware_options H)) : list (registration H) :=
  let mw := normalize_middleware o in
  [ {| reg_verb := GET; reg_path := baseRoute;
       reg_chain := getMiddlewares mw (mw_list mw); reg_endpoint := ListRoute |};
    {| reg_verb := GET; reg_path := baseRoute ++ "/:id";
       reg_chain := getMiddlewares mw (mw_getOne mw); reg_endpoint := GetOneRoute |};
    {| reg_verb := POST; reg_path := baseRoute;
       reg_chain := getMiddlewares mw (mw_create mw); reg_endpoint := CreateRoute |};
    {| reg_verb := PUT; reg_path := baseRoute ++ "/:id";
       reg_chain := getMiddlewares mw (mw_update mw); reg_endpoint := UpdateRoute |};
    {| reg_verb := DELETE; reg_path := baseRoute ++ "/:id";
       reg_chain := getMiddlewares mw (mw_delete mw); reg_endpoint := DeleteRoute |} ].

(** ** A store in memory

    Documents, bodies and identifiers are strings; the world is the list of
    stored documents.  Used to run the handlers on concrete requests. *)

Module Memory.

Definition store := list string.

(** At most [length w] documents are skipped or taken. *)
Definition bounded (n : Z) (w : store) : nat :=
  Z.to_nat (Z.min n (Z.of_nat (length w))).

Definition window (q : Query) (w : store) : store :=
  let w := match q_skip q with Some n => drop (bounded n w) w | None => w end in
  match q_limit q with Some n => take (bounded n w) w | None => w end.

Definition model : accessor store string string :=
  {| exec_find := fun q w => (Returned (window q w), w);
     exec_findById := fun q w =>
       (Returned match q_conditions q with
                 | ById id => if bool_decide (id ∈ w) then Some id else None
                 | Where _ => None
                 end, w);
     countDocuments := fun _ w => (Returned (Z.of_nat (length w)), w);
     create := fun d w => (Returned d, (w ++ [d])%list);
     findByIdAndUpdate := fun id d _ w =>
       if bool_decide (id ∈ w)
       then (Returned (Some d), (fun x => if String.eqb x id then d else x) <$> w)
       else (Returned None, w);
     findByIdAndDelete := fun id w =>
       if bool_decide (id ∈ w)
       then (Returned (Some id), filter (fun x => x ≠ id) w)
       else (Returned None, w) |}.

(** An accessor whose count fails. *)
Definition model_count_fails : accessor store string string :=
  {| exec_find := exec_find model;
     exec_findById := exec_findById model;
     countDocuments := fun _ w =>
       (Thrown false (Exception (Some "count failed")), w);
     create := create model;
     findByIdAndUpdate := findByIdAndUpdate model;
     findByIdAndDelete := findByIdAndDelete model |}.

(** An accessor whose write operations fail. *)
Definition model_writes_fail : accessor store string string :=
  {| exec_find := exec_find model;
     exec_findById := exec_findById model;
     countDocuments := countDocuments model;
     create := fun _ w => (Thrown false (Exception (Some "duplicate key")), w);
     findByIdAndUpdate := fun _ _ _ w =>
       (Thrown false (Exception (Some "validation failed")), w);
     findByIdAndDelete := fun _ w => (Thrown false (Exception None), w) |}.

(** An accessor whose operations reject with [undefined]. *)
Definition model_rejects_nullish : accessor store string string :=
  {| exec_find := fun _ w => (Thrown false Nullish, w);
     exec_findById := fun _ w => (Thrown false Nullish, w);
     countDocuments := fun _ w => (Thrown false Nullish, w);
     create := fun _ w => (Thrown false Nullish, w);
     findByIdAndUpdate := fun _ _ _ w => (Thrown false Nullish, w);
     findByIdAndDelete := fun _ w => (Thrown false Nullish, w) |}.

(** An accessor whose read throws before it returns a promise. *)
Definition model_read_throws : accessor store string string :=
  {| exec_find := fun _ w => (Thrown true (Exception (Some "not connected")), w);
     exec_findById := exec_findById model;
     countDocuments := countDocuments model;
     create := create model;
     findByIdAndUpdate := findByIdAndUpdate model;
     findByIdAndDelete := findByIdAndDelete model |}.

Definition req (q : list (string * string)) (id : option string) (b : string)
  : request string :=
  Request (list_to_map ((fun kv => (kv.1, QStr kv.2)) <$> q)) id b.

Definition start (w : store) : state store string string :=
  {| world := w; log := [] |}.

(** A callback that throws [Error(msg)]. *)
Definition failing {A B : Type} (msg : string)
  : request string -> A -> effect store B :=
  fun _ _ w => (Thrown true (Exception (Some msg)), w).


Definition opts_of (o : options store string string) : config store string string :=
  default
    {| pagination_enabled := true; pagination_defaultLimit := 20;
       pagination_maxLimit := 100; sort_default := "-createdAt";
       sort_allowed := []; filter_enabled := true; filter_allowed := [];
       projection := ∅; populate_fields := []; validateBody := None;
       opts_hooks := no_hooks |}
    (typed (normalize o)).

End Memory.

(** ** Vocabulary of the properties *)

(** [n] is the ceiling of the rational [a / b]. *)
Definition is_ceiling (a b n : Z) : Prop :=
  (0 < b /\ (n - 1) * b < a <= n * b) \/ (b < 0 /\ n * b <= a < (n - 1) * b).

(** [bare] is [requested] without its leading descending marker, if any. *)
Definition bare_field (requested bare : string) : Prop :=
  requested = String "-" bare
  \/ (requested = bare /\ forall rest, requested <> String "-" rest).

(** A query key passes when it is not reserved, is not [__proto__], and the
    allowed set is empty or contains it. *)
Definition passes {W Data Doc : Type} (opts : config W Data Doc) (key : string) : Prop :=
  (key ∉ reserved_keys)
  /\ key <> "__proto__"
  /\ (filter_allowed opts = [] \/ key ∈ filter_allowed opts).

(** The message of an error envelope: the thrown message, or the fallback
    when there is none or it is empty. *)
Definition message_of (message : option string) (fallback : string) : string :=
  match message with
  | Some m => if decide (m = "") then fallback else m
  | None => fallback
  end.


(** The [sort] parameter is absent or a string. *)
Definition string_sort (query : gmap string qvalue) : Prop :=
  forall l, query !! "sort" <> Some (QArr l).

(** A call that never throws [null] or [undefined]. *)
Definition never_nullish {W A : Type} (f : effect W A) : Prop :=
  forall w sync, (f w).1 <> Thrown sync Nullish.

Definition optional_never_nullish {W A B C : Type}
    (h : option (A -> B -> effect W C)) : Prop :=
  forall hook a b, h = Some hook -> never_nullish (hook a b).

(** No operation of the accessor and no callback of the options throws
    [null] or [undefined]. *)
Definition accessor_never_nullish {W Data Doc : Type}
    (model : accessor W Data Doc) : Prop :=
  (forall q, never_nullish (exec_find model q))
  /\ (forall q, never_nullish (exec_findById model q))
  /\ (forall f, never_nullish (countDocuments model f))
  /\ (forall d, never_nullish (create model d))
  /\ (forall id d o, never_nullish (findByIdAndUpdate model id d o))
  /\ (forall id, never_nullish (findByIdAndDelete model id)).

Definition callbacks_never_nullish {W Data Doc : Type}
    (opts : config W Data Doc) : Prop :=
  (forall validate d, validateBody opts = Some validate ->
                      never_nullish (validate d))
  /\ optional_never_nullish (beforeCreate (opts_hooks opts))
  /\ optional_never_nullish (afterCreate (opts_hooks opts))
  /\ optional_never_nullish (beforeUpdate (opts_hooks opts))
  /\ optional_never_nullish (afterUpdate (opts_hooks opts))
  /\ optional_never_nullish (beforeDelete (opts_hooks opts))
  /\ optional_never_nullish (afterDelete (opts_hooks opts)).

(** The chain configured for one route. *)
Definition own_chain {H : Type} (mw : middleware_options H) (e : endpoint)
  : option (list H) :=
  match e with
  | ListRoute => mw_list mw
  | GetOneRoute => mw_getOne mw
  | CreateRoute => mw_create mw
  | UpdateRoute => mw_update mw
  | DeleteRoute => mw_delete mw
  end.

(** An optional hook [h], called on [a] in world [w], has returned [b] and
    left the world [w'], adding [l] to the log; a hook that is not configured
    returns [b0] and changes nothing. *)
Definition hook_ran {W Data Doc A B : Type}
    (h : option (request Data -> A -> effect W B)) (c : A -> call Data Doc)
    (req : request Data) (a : A) (b0 : B) (w : W)
    (b : B) (w' : W) (l : list (call Data Doc)) : Prop :=
  match h with
  | Some hook => hook req a w = (Returned b, w') /\ l = [c a]
  | None => b = b0 /\ w' = w /\ l = []
  end.

(** The optional validator has accepted [data]. *)
Definition validation_passed {W Data Doc : Type}
    (v : option (Data -> effect W JS.value)) (data : Data) (w : W)
    (w' : W) (l : list (call Data Doc)) : Prop :=
  match v with
  | Some validate =>
      exists r, validate data w = (Returned r, w') /\ JS.truthy r = true
                /\ l = [CallValidateBody data]
  | None => w' = w /\ l = []
  end.

(** The calls to [countDocuments]. *)
Definition is_count {Data Doc : Type} (c : call Data Doc) : bool :=
  match c with
  | CallCountDocuments _ => true
  | _ => false
  end.

(** The calls that change the store. *)
Definition is_write {Data Doc : Type} (c : call Data Doc) : bool :=
  match c with
  | CallCreate _ | CallFindByIdAndUpdate _ _ _ | CallFindByIdAndDelete _ => true
  | _ => false
  end.

(** The calls that only read the store. *)
Definition is_read {Data Doc : Type} (c : call Data Doc) : bool :=
  match c with
  | CallExec _ | CallCountDocuments _ => true
  | _ => false
  end.

(** What a call invokes, without its arguments. *)
Inductive call_kind :=
| KValidateBody | KBeforeCreate | KAfterCreate | KBeforeUpdate | KAfterUpdate
| KBeforeDelete | KAfterDelete | KExec | KCountDocuments | KCreate
| KFindByIdAndUpdate | KFindByIdAndDelete.

Definition kind_of {Data Doc : Type} (c : call Data Doc) : call_kind :=
  match c with
  | CallValidateBody _ => KValidateBody
  | CallBeforeCreate _ => KBeforeCreate
  | CallAfterCreate _ => KAfterCreate
  | CallBeforeUpdate _ => KBeforeUpdate
  | CallAfterUpdate _ => KAfterUpdate
  | CallBeforeDelete _ => KBeforeDelete
  | CallAfterDelete _ => KAfterDelete
  | CallExec _ => KExec
  | CallCountDocuments _ => KCountDocuments
  | CallCreate _ => KCreate
  | CallFindByIdAndUpdate _ _ _ => KFindByIdAndUpdate
  | CallFindByIdAndDelete _ => KFindByIdAndDelete
  end.

(** [[k]] when [o] is configured, nothing otherwise. *)
Definition when_set {A : Type} (o : option A) (k : call_kind) : list call_kind :=
  match o with
  | Some _ => [k]
  | None => []
  end.

(** The calls of a create, update and delete request that runs to its end. *)
Definition create_sequence {W Data Doc : Type} (opts : config W Data Doc)
  : list call_kind :=
  (when_set (validateBody opts) KValidateBody
   ++ when_set (beforeCreate (opts_hooks opts)) KBeforeCreate
   ++ [KCreate]
   ++ when_set (afterCreate (opts_hooks opts)) KAfterCreate)%list.

Definition update_sequence {W Data Doc : Type} (opts : config W Data Doc)
  : list call_kind :=
  (when_set (beforeUpdate (opts_hooks opts)) KBeforeUpdate
   ++ [KFindByIdAndUpdate]
   ++ when_set (afterUpdate (opts_hooks opts)) KAfterUpdate)%list.

Definition delete_sequence {W Data Doc : Type} (opts : config W Data Doc)
  : list call_kind :=
  (when_set (beforeDelete (opts_hooks opts)) KBeforeDelete
   ++ [KFindByIdAndDelete]
   ++ when_set (afterDelete (opts_hooks opts)) KAfterDelete)%list.

(** [r] is the error envelope with status [code] and a non-empty message. *)
Definition error_envelope {Doc : Type} (r : response Doc) (code : Z) : Prop :=
  status r = code /\ exists m, json r = ErrorBody true m /\ m <> "".

(** The scalar options are absent or of the type [AutoCrudOptions] declares. *)
Definition number_or_absent (v : JS.value) : Prop :=
  v = JS.VUndefined \/ exists n, v = JS.VNum n.

Definition string_or_absent (v : JS.value) : Prop :=
  v = JS.VUndefined \/ exists s, v = JS.VStr s.

Definition declared_types {W Data Doc : Type} (o : options W Data Doc) : Prop :=
  number_or_absent (opt_chain (o_pagination o) po_defaultLimit)
  /\ number_or_absent (opt_chain (o_pagination o) po_maxLimit)
  /\ string_or_absent (opt_chain (o_sort o) so_default).

(** A supplied number, or [d] when it is absent or zero. *)
Definition number_or (v : JS.value) (d : Z) : Z :=
  match v with
  | JS.VNum n => if (n =? 0)%Z then d else n
  | _ => d
  end.

(** A supplied string, or [d] when it is absent or empty. *)
Definition string_or (v : JS.value) (d : string) : string :=
  match v with
  | JS.VStr s => if String.eqb s "" then d else s
  | _ => d
  end.

(** The query a list request sends to the accessor, [sort] being the
    resolved sort. *)
Definition list_query {W Data Doc : Type} (opts : config W Data Doc)
    (query : gmap string qvalue) (sort : string) : Query :=
  {| q_conditions := Where (buildFilter opts query);
     q_projection := projection opts;
     q_sort := Some sort;
     q_populate := populate_fields opts;
     q_skip := if pagination_enabled opts
               then Some (JS.mul (JS.sub (resolve_page query) 1)
                                 (resolve_limit opts query))
               else None;
     q_limit := if pagination_enabled opts
                then Some (resolve_limit opts query)
                else None |}.

(** The query a get-one request sends to the accessor. *)
Definition get_one_query {W Data Doc : Type} (opts : config W Data Doc)
    (id : string) : Query :=
  {| q_conditions := ById id;
     q_projection := projection opts;
     q_sort := None;
     q_populate := populate_fields opts;
     q_skip := None;
     q_limit := None |}.

Arguments message_or : simpl never.

(** Proof steps shared by the handler proofs: unfolding the monad, and
    normalising the appended log. *)
Ltac run_handler :=
  unfold try_catch, catch_response, promise_all, invoke, lift,
    mbind, M_bind, mret, M_ret; simpl.

Ltac tidy_log := rewrite <- ?app_assoc; simpl; rewrite ?app_nil_r; try reflexivity.

(** * Properties *)

(** ** parseInt on sample inputs *)

Example parseInt_plain : JS.parseInt "42" = Some 42.
Proof. reflexivity. Qed.

Example parseInt_prefix : JS.parseInt "  -17px" = Some (-17).
Proof. reflexivity. Qed.

Example parseInt_hex : JS.parseInt "0x1f" = Some 31.
Proof. reflexivity. Qed.

Example parseInt_nan : JS.parseInt "abc" = None.
Proof. reflexivity. Qed.

Example parseInt_missing : JS.parseInt (JS.to_string None) = None.
Proof. reflexivity. Qed.

Example parseInt_empty : JS.parseInt "" = None.
Proof. reflexivity. Qed.

Example parseInt_rounds : JS.parseInt "9007199254740993" = Some 9007199254740992.
Proof. reflexivity. Qed.

Example parseInt_array : JS.parseInt (JS.to_string (Some (QArr ["2"; "3"]))) = Some 2.
Proof. reflexivity. Qed.

(** ** Double arithmetic *)



(** ** Arithmetic of the pagination envelope *)

Lemma ceil_div_is_ceiling (a b : Z) : b <> 0 -> is_ceiling a b (JS.ceil_div a b).
Proof.
  intros Hb. unfold is_ceiling, JS.ceil_div.
  destruct (Z.lt_trichotomy b 0) as [Hneg | [H0 | Hpos]]; [right | lia | left].
  - split; [done|].
    pose proof (Z.mod_neg_bound (- a) b Hneg) as Hm.
    pose proof (Z.div_mod (- a) b Hb) as Hd. nia.
  - split; [done|].
    pose proof (Z.mod_pos_bound (- a) b Hpos) as Hm.
    pose proof (Z.div_mod (- a) b Hb) as Hd. nia.
Qed.

Lemma is_ceiling_unique (a b n m : Z) : is_ceiling a b n -> is_ceiling a b m -> n = m.
Proof. unfold is_ceiling. intros [[? ?] | [? ?]] [[? ?] | [? ?]]; nia. Qed.

Lemma num_or_nonzero (p : option Z) (d : Z) : d <> 0 -> JS.num_or p d <> 0.
Proof.
  intros Hd. unfold JS.num_or. destruct p as [n|]; [|done].
  destruct (Z.eqb_spec n 0); done.
Qed.

Lemma resolve_limit_nonzero {W Data Doc} (opts : config W Data Doc) query :
  pagination_maxLimit opts <> 0 -> pagination_defaultLimit opts <> 0 ->
  resolve_limit opts query <> 0.
Proof.
  intros Hm Hd. unfold resolve_limit.
  pose proof (num_or_nonzero (JS.parseInt (JS.to_string (query !! "limit"))) _ Hd).
  lia.
Qed.

(** ** Normalised options *)

Lemma or_truthy (a b : JS.value) : JS.truthy b = true -> JS.truthy (JS.or a b) = true.
Proof. unfold JS.or. destruct (JS.truthy a) eqn:E; auto. Qed.

(** Whatever the caller supplies, the limits the handlers compute with are
    not zero and the default sort is not empty. *)
Lemma typed_normalize_nonzero {W Data Doc} (o : options W Data Doc) opts :
  typed (normalize o) = Some opts ->
  pagination_maxLimit opts <> 0 /\ pagination_defaultLimit opts <> 0
  /\ sort_default opts <> "".
Proof.
  unfold typed. intros H.
  pose proof (or_truthy (opt_chain (o_pagination o) po_defaultLimit) (JS.VNum 20) eq_refl) as Hd.
  pose proof (or_truthy (opt_chain (o_pagination o) po_maxLimit) (JS.VNum 100) eq_refl) as Hm.
  pose proof (or_truthy (opt_chain (o_sort o) so_default) (JS.VStr "-createdAt") eq_refl) as Hs.
  change (JS.or (opt_chain (o_pagination o) po_defaultLimit) (JS.VNum 20))
    with (pagination_defaultLimit (normalize o)) in Hd.
  change (JS.or (opt_chain (o_pagination o) po_maxLimit) (JS.VNum 100))
    with (pagination_maxLimit (normalize o)) in Hm.
  change (JS.or (opt_chain (o_sort o) so_default) (JS.VStr "-createdAt"))
    with (sort_default (normalize o)) in Hs.
  destruct (pagination_defaultLimit (normalize o)) as [| |?|d| |?|]; try discriminate.
  destruct (pagination_maxLimit (normalize o)) as [| |?|m| |?|]; try discriminate.
  destruct (sort_default (normalize o)) as [| |?|?| |srt|]; try discriminate.
  injection H as <-. simpl in *.
  repeat split.
  - intros ->. discriminate.
  - intros ->. discriminate.
  - intros ->. discriminate.
Qed.

(** ** Page and limit resolution *)

(** C8: the resolved page is the parsed [page] parameter, except that a
    missing, non-numeric or below-1 value resolves to 1; it is always at
    least 1. *)
Theorem resolve_page_spec (query : gmap string qvalue) :
  (query !! "page" = None -> resolve_page query = 1)
  /\ (forall v, query !! "page" = Some v ->
        JS.parseInt (JS.to_string (Some v)) = None ->
        resolve_page query = 1)
  /\ (forall v n, query !! "page" = Some v ->
        JS.parseInt (JS.to_string (Some v)) = Some n -> n < 1 ->
        resolve_page query = 1)
  /\ (forall v n, query !! "page" = Some v ->
        JS.parseInt (JS.to_string (Some v)) = Some n -> 1 <= n ->
        resolve_page query = n)
  /\ 1 <= resolve_page query.
Proof.
  unfold resolve_page. repeat split.
  - intros ->. reflexivity.
  - intros v -> Hp. rewrite Hp. reflexivity.
  - intros v n -> Hp Hn. rewrite Hp. unfold JS.num_or.
    destruct (Z.eqb_spec n 0); lia.
  - intros v n -> Hp Hn. rewrite Hp. unfold JS.num_or.
    destruct (Z.eqb_spec n 0); lia.
  - lia.
Qed.

Lemma resolve_page_spec_witness :
  resolve_page {["page" := QStr "3"]} = 3
  /\ resolve_page {["page" := QStr "-2"]} = 1
  /\ resolve_page {["page" := QStr "abc"]} = 1
  /\ resolve_page ∅ = 1.
Proof.
  split; [| split; [| split]].
  - apply (proj1 (proj2 (proj2 (proj2 (resolve_page_spec {["page" := QStr "3"]}))))
             (QStr "3") 3);
      [reflexivity | reflexivity | lia].
  - apply (proj1 (proj2 (proj2 (resolve_page_spec {["page" := QStr "-2"]})))
             (QStr "-2") (-2));
      [reflexivity | reflexivity | lia].
  - apply (proj1 (proj2 (resolve_page_spec {["page" := QStr "abc"]})) (QStr "abc"));
      reflexivity.
  - apply (proj1 (resolve_page_spec ∅)). reflexivity.
Defined.

(** C1 as stated fails on two inputs.  A requested limit of 0 is not passed
    through: [0 || defaultLimit] is the default.  And with a default above the
    maximum, a missing limit resolves to the maximum, not to the default. *)
Lemma resolve_limit_zero_counterexample :
  let opts := Memory.opts_of no_options in
  let query : gmap string qvalue := {["limit" := QStr "0"]} in
  let opts' := Memory.opts_of
    {| o_pagination := Some {| po_enabled := JS.VUndefined;
                               po_defaultLimit := JS.VNum 200;
                               po_maxLimit := JS.VNum 100 |};
       o_sort := None; o_filter := None; o_projection := None;
       o_populate := None; o_validateBody := None; o_hooks := None |} in
  (JS.parseInt (JS.to_string (query !! "limit")) = Some 0
   /\ pagination_maxLimit opts = 100
   /\ resolve_limit opts query = 20
   /\ resolve_limit opts query <> Z.min (pagination_maxLimit opts) 0)
  /\ (pagination_defaultLimit opts' = 200
      /\ resolve_limit opts' ∅ = 100
      /\ resolve_limit opts' ∅ <> pagination_defaultLimit opts').
Proof. vm_compute. repeat split; discriminate. Qed.

(** C1, amended: a [limit] that parses as a non-zero integer, positive or
    negative, resolves to [min(maxLimit, requested)], so a negative value is
    not floored; a [limit] that is absent, non-numeric or parses as 0 resolves
    to [min(maxLimit, defaultLimit)], which is the default whenever the
    default does not exceed the maximum. *)
Theorem resolve_limit_spec {W Data Doc} (opts : config W Data Doc)
    (query : gmap string qvalue) :
  let parsed := JS.parseInt (JS.to_string (query !! "limit")) in
  (forall n, parsed = Some n -> n <> 0 ->
     resolve_limit opts query = Z.min (pagination_maxLimit opts) n)
  /\ (parsed = None \/ parsed = Some 0 ->
      resolve_limit opts query
      = Z.min (pagination_maxLimit opts) (pagination_defaultLimit opts))
  /\ (parsed = None \/ parsed = Some 0 ->
      pagination_defaultLimit opts <= pagination_maxLimit opts ->
      resolve_limit opts query = pagination_defaultLimit opts)
  /\ (query !! "limit" = None -> parsed = None)
  /\ resolve_limit opts query <= pagination_maxLimit opts.
Proof.
  intros parsed. unfold resolve_limit. fold parsed. repeat split.
  - intros n -> Hn. unfold JS.num_or. destruct (Z.eqb_spec n 0); [done | reflexivity].
  - intros [-> | ->]; reflexivity.
  - intros [-> | ->] Hle; simpl; lia.
  - subst parsed. intros ->. reflexivity.
  - lia.
Qed.

Lemma resolve_limit_spec_witness :
  let opts := Memory.opts_of no_options in
  resolve_limit opts {["limit" := QStr "500"]} = 100
  /\ resolve_limit opts {["limit" := QStr "-5"]} = -5
  /\ resolve_limit opts {["limit" := QStr "0"]} = 20
  /\ resolve_limit opts {["limit" := QStr "many"]} = 20.
Proof.
  intros opts. split; [| split; [| split]].
  - apply (proj1 (resolve_limit_spec opts {["limit" := QStr "500"]}) 500);
      [reflexivity | lia].
  - apply (proj1 (resolve_limit_spec opts {["limit" := QStr "-5"]}) (-5));
      [reflexivity | lia].
  - apply (proj1 (proj2 (proj2 (resolve_limit_spec opts {["limit" := QStr "0"]}))));
      [right; reflexivity | vm_compute; discriminate].
  - apply (proj1 (proj2 (proj2 (resolve_limit_spec opts {["limit" := QStr "many"]}))));
      [left; reflexivity | vm_compute; discriminate].
Defined.

(** ** Sort resolution *)

Lemma bare_field_strip (requested bare : string) :
  bare_field requested bare -> JS.strip_minus requested = bare.
Proof.
  intros [-> | [-> Hno]]; [reflexivity|].
  destruct bare as [|c rest]; [reflexivity|].
  unfold JS.strip_minus.
  destruct (Ascii.ascii_dec c "-") as [-> | Hc]; [by destruct (Hno rest)|].
  destruct c as [[] [] [] [] [] [] [] []]; try reflexivity. by destruct Hc.
Qed.

Lemma includes_true (l : list string) (x : string) : JS.includes l x = true <-> x ∈ l.
Proof. unfold JS.includes. apply bool_decide_eq_true. Qed.

Lemma includes_false (l : list string) (x : string) : JS.includes l x = false <-> x ∉ l.
Proof. unfold JS.includes. apply bool_decide_eq_false. Qed.

Lemma length_pos_nonempty {A} (l : list A) : (0 <? length l)%nat = true <-> l <> [].
Proof. destruct l; simpl; split; (done || intros; done). Qed.

Lemma eqb_empty_false (s : string) : s <> "" -> String.eqb s "" = false.
Proof. intros H. by apply String.eqb_neq. Qed.

(** C3: a supplied sort whose bare field is outside a non-empty allowed set
    resolves to the configured default; any other supplied sort is used
    verbatim; without a sort value the default is used. *)
Theorem applySort_spec {W Data Doc} (opts : config W Data Doc)
    (query : gmap string qvalue) :
  (forall requested bare,
      query !! "sort" = Some (QStr requested) -> requested <> "" ->
      bare_field requested bare ->
      (sort_allowed opts <> [] -> bare ∉ sort_allowed opts ->
       applySort opts query = Returned (sort_default opts))
      /\ (sort_allowed opts = [] \/ bare ∈ sort_allowed opts ->
          applySort opts query = Returned requested))
  /\ (query !! "sort" = None \/ query !! "sort" = Some (QStr "") ->
      applySort opts query = Returned (sort_default opts)).
Proof.
  unfold applySort. split.
  - intros requested bare -> Hne Hbare.
    rewrite (eqb_empty_false _ Hne), (bare_field_strip _ _ Hbare). simpl. split.
    + intros Hall Hnot.
      apply length_pos_nonempty in Hall. apply includes_false in Hnot.
      by rewrite Hall, Hnot.
    + intros [Hnil | Hin].
      * rewrite Hnil. reflexivity.
      * apply includes_true in Hin. rewrite Hin. by rewrite andb_false_r.
  - intros [-> | ->]; reflexivity.
Qed.

Lemma applySort_spec_witness :
  let restricted := Memory.opts_of
    {| o_pagination := None;
       o_sort := Some {| so_default := JS.VUndefined; so_allowed := Some ["name"] |};
       o_filter := None; o_projection := None; o_populate := None;
       o_validateBody := None; o_hooks := None |} in
  applySort restricted {["sort" := QStr "-age"]} = Returned "-createdAt"
  /\ applySort restricted {["sort" := QStr "-name"]} = Returned "-name"
  /\ applySort (Memory.opts_of no_options) {["sort" := QStr "-age"]} = Returned "-age"
  /\ applySort restricted ∅ = Returned "-createdAt".
Proof.
  intros restricted. split; [| split; [| split]].
  - destruct (proj1 (applySort_spec restricted {["sort" := QStr "-age"]}) "-age" "age")
      as [Hdefault _]; [vm_compute; reflexivity | discriminate | by left |].
    apply Hdefault.
    + vm_compute. discriminate.
    + vm_compute. intros H. apply list_elem_of_In in H. simpl in H.
      destruct H as [H | []]. discriminate.
  - destruct (proj1 (applySort_spec restricted {["sort" := QStr "-name"]}) "-name" "name")
      as [_ Hverbatim]; [vm_compute; reflexivity | discriminate | by left |].
    apply Hverbatim. right. vm_compute. apply list_elem_of_In. left. reflexivity.
  - destruct (proj1 (applySort_spec (Memory.opts_of no_options) {["sort" := QStr "-age"]})
                "-age" "age")
      as [_ Hverbatim]; [vm_compute; reflexivity | discriminate | by left |].
    apply Hverbatim. left. reflexivity.
  - apply (proj2 (applySort_spec restricted ∅)). left. reflexivity.
Defined.

(** ** Filter resolution *)

Lemma length_zero_empty {A} (l : list A) : (length l =? 0)%nat = true <-> l = [].
Proof. destruct l; simpl; split; (done || intros; done). Qed.

Lemma passes_test {W Data Doc} (opts : config W Data Doc) (key : string) :
  (negb (JS.includes reserved_keys key)
   && ((length (filter_allowed opts) =? 0)%nat
       || JS.includes (filter_allowed opts) key)
   && negb (String.eqb key "__proto__")) = true
  <-> passes opts key.
Proof.
  unfold passes.
  rewrite !andb_true_iff, !negb_true_iff, orb_true_iff,
    includes_false, includes_true, length_zero_empty, String.eqb_neq.
  tauto.
Qed.

Lemma lookup_assign (filter : gmap string qvalue) (i key : string) (x : qvalue) :
  assign filter i x !! key
  = if decide (i = key /\ i <> "__proto__") then Some x else filter !! key.
Proof.
  unfold assign. destruct (String.eqb_spec i "__proto__") as [-> | Hi].
  - destruct (decide _) as [[_ Hne] | _]; done.
  - destruct (decide (i = key)) as [-> | Hik].
    + rewrite lookup_insert_eq. by rewrite decide_True.
    + rewrite lookup_insert_ne by done. rewrite decide_False; [done | tauto].
Qed.

Lemma buildFilter_lookup {W Data Doc} (opts : config W Data Doc)
    (query : gmap string qvalue) (key : string) (value : qvalue) :
  filter_enabled opts = true ->
  buildFilter opts query !! key = Some value
  <-> query !! key = Some value /\ passes opts key.
Proof.
  intros Hen. unfold buildFilter. rewrite Hen. simpl. revert key value.
  apply (map_fold_weak_ind (fun (r m : gmap string qvalue) =>
    forall key value,
      r !! key = Some value <-> m !! key = Some value /\ passes opts key)).
  - intros key value. rewrite !lookup_empty. split; [done | by intros [? _]].
  - intros i x m r Hfresh IH key value.
    pose proof (passes_test opts i) as Ht.
    assert (Hdrop : ~ passes opts i ->
            (r !! key = Some value
             <-> <[i:=x]> m !! key = Some value /\ passes opts key)).
    { intros Hno. rewrite IH. destruct (decide (i = key)) as [-> | Hik].
      - rewrite lookup_insert_eq, Hfresh. split; intros [? ?]; done.
      - by rewrite lookup_insert_ne. }
    destruct (JS.includes reserved_keys i) eqn:Hres; simpl in Ht.
    + apply Hdrop. intros Hp. apply Ht in Hp. done.
    + destruct ((length (filter_allowed opts) =? 0)%nat
                || JS.includes (filter_allowed opts) i) eqn:Hall; simpl in Ht.
      * rewrite lookup_assign.
        destruct (decide (i = key /\ i <> "__proto__")) as [[-> Hproto] | Hnot].
        -- rewrite lookup_insert_eq. split; [| by intros [? _]].
           intros ?. split; [done|]. apply Ht. by apply negb_true_iff, String.eqb_neq.
        -- destruct (decide (i = key)) as [-> | Hik].
           ++ apply Hdrop. intros (_ & Hproto & _). tauto.
           ++ rewrite lookup_insert_ne by done. apply IH.
      * apply Hdrop. intros Hp. apply Ht in Hp. done.
Qed.

(** C4 as stated fails on the key [__proto__]: it is not reserved and the
    allowed set is empty, yet the filter does not hold it. *)
Lemma buildFilter_proto_counterexample :
  let opts := Memory.opts_of no_options in
  let query : gmap string qvalue := {["__proto__" := QStr "x"]} in
  filter_enabled opts = true
  /\ filter_allowed opts = []
  /\ ("__proto__" ∉ ["page"; "limit"; "sort"])
  /\ query !! "__proto__" = Some (QStr "x")
  /\ buildFilter opts query !! "__proto__" = None.
Proof.
  repeat split; try (vm_compute; reflexivity).
  intros H. apply list_elem_of_In in H. simpl in H.
  destruct H as [H | [H | [H | []]]]; discriminate.
Qed.

(** C4, amended: with filtering disabled the filter is empty; otherwise it
    holds exactly the query entries whose key is not [page], [limit], [sort]
    or [__proto__] and is allowed (the allowed set being empty or containing
    the key), each with its value as received; hence its keys lie in a
    non-empty allowed set. *)
Theorem buildFilter_spec {W Data Doc} (opts : config W Data Doc)
    (query : gmap string qvalue) :
  (filter_enabled opts = false -> buildFilter opts query = ∅)
  /\ (filter_enabled opts = true ->
      forall key value,
        buildFilter opts query !! key = Some value
        <-> query !! key = Some value
            /\ (key ∉ ["page"; "limit"; "sort"])
            /\ key <> "__proto__"
            /\ (filter_allowed opts = [] \/ key ∈ filter_allowed opts))
  /\ (filter_allowed opts <> [] ->
      forall key, key ∈ dom (buildFilter opts query) -> key ∈ filter_allowed opts).
Proof.
  split; [| split].
  - intros Hen. unfold buildFilter. by rewrite Hen.
  - intros Hen key value. apply buildFilter_lookup, Hen.
  - intros Hne key [value Hv]%elem_of_dom.
    destruct (filter_enabled opts) eqn:Hen.
    + apply buildFilter_lookup in Hv as (_ & _ & _ & [Hnil | Hin]); done.
    + unfold buildFilter in Hv. rewrite Hen in Hv. simpl in Hv.
      by rewrite lookup_empty in Hv.
Qed.

Lemma buildFilter_spec_witness :
  let opts := Memory.opts_of
    {| o_pagination := None; o_sort := None;
       o_filter := Some {| fo_enabled := JS.VUndefined;
                           fo_allowed := Some ["age"; "role"] |};
       o_projection := None; o_populate := None;
       o_validateBody := None; o_hooks := None |} in
  let query : gmap string qvalue :=
    <["age" := QStr "30"]> (<["city" := QStr "NYC"]> (<["page" := QStr "2"]> ∅)) in
  buildFilter opts query !! "age" = Some (QStr "30")
  /\ (forall key, key ∈ dom (buildFilter opts query) -> key ∈ ["age"; "role"]).
Proof.
  intros opts query. split.
  - apply (proj1 (proj2 (buildFilter_spec opts query)) ltac:(reflexivity)
             "age" (QStr "30")).
    split; [vm_compute; reflexivity | split; [| split]].
    + intros H. apply list_elem_of_In in H. simpl in H.
      destruct H as [H | [H | [H | []]]]; discriminate.
    + discriminate.
    + right. apply list_elem_of_In. left. reflexivity.
  - apply (proj2 (proj2 (buildFilter_spec opts query))). vm_compute. discriminate.
Defined.

Example buildFilter_allowed_example :
  let opts := Memory.opts_of
    {| o_pagination := None; o_sort := None;
       o_filter := Some {| fo_enabled := JS.VUndefined;
                           fo_allowed := Some ["age"; "role"] |};
       o_projection := None; o_populate := None;
       o_validateBody := None; o_hooks := None |} in
  buildFilter opts (list_to_map [("age", QStr "30"); ("city", QStr "NYC")])
  = {["age" := QStr "30"]}.
Proof. vm_compute. reflexivity. Qed.

(** ** Running the handlers *)

Lemma message_or_exception (message : option string) (fallback : string) :
  message_or (Exception message) fallback = Some (message_of message fallback).
Proof.
  unfold message_or, message_of. f_equal.
  destruct message as [m|]; simpl; [|reflexivity].
  destruct (decide (m = "")) as [-> | Hm]; [reflexivity|].
  by rewrite (eqb_empty_false _ Hm).
Qed.


Lemma catch_exception {Doc} (fallback : string) (code : Z) (message : option string) :
  catch_response (Doc := Doc) fallback code (Exception message)
  = Some {| status := code; json := ErrorBody true (message_of message fallback) |}.
Proof. unfold catch_response. by rewrite message_or_exception. Qed.

Lemma truthy_id (id : string) : id <> "" -> JS.str_truthy (Some id) = true.
Proof. intros H. simpl. by rewrite (eqb_empty_false _ H). Qed.

(** C5: when the configured validator returns a falsy value, the create
    handler answers 400 "Validation failed" and the only call made is the one
    to the validator: the accessor's create is not invoked. *)
Theorem create_validation_failure {W Data Doc} (model : accessor W Data Doc)
    (opts : config W Data Doc) (req : request Data) (s : state W Data Doc)
    validate (v : JS.value) (w' : W) :
  validateBody opts = Some validate ->
  validate (body req) (world s) = (Returned v, w') ->
  JS.truthy v = false ->
  create_handler model opts req s
  = (Some {| status := 400; json := ErrorBody true "Validation failed" |},
     {| world := w'; log := log s ++ [CallValidateBody (body req)] |})
  /\ (forall data, CallCreate data ∈ log (create_handler model opts req s).2 ->
         CallCreate data ∈ log s).
Proof.
  intros Hv Hrun Hfalsy.
  assert (Heq : create_handler model opts req s
    = (Some {| status := 400; json := ErrorBody true "Validation failed" |},
       {| world := w'; log := log s ++ [CallValidateBody (body req)] |})).
  { unfold create_handler. rewrite Hv. run_handler.
    rewrite Hrun. simpl. rewrite Hfalsy. reflexivity. }
  split; [exact Heq|].
  intros data. rewrite Heq. simpl. rewrite elem_of_app, list_elem_of_singleton.
  intros [Hin | Hin]; [done | discriminate].
Qed.

Lemma create_validation_failure_witness :
  let opts := Memory.opts_of
    {| o_pagination := None; o_sort := None; o_filter := None;
       o_projection := None; o_populate := None;
       o_validateBody := Some (fun data w => (Returned (JS.VBool false), w));
       o_hooks := None |} in
  create_handler Memory.model opts (Memory.req [] None "doc") (Memory.start ["a"])
  = (Some {| status := 400; json := ErrorBody true "Validation failed" |},
     {| world := ["a"]; log := [CallValidateBody "doc"] |}).
Proof.
  intros opts.
  exact (proj1 (create_validation_failure Memory.model opts
                  (Memory.req [] None "doc") (Memory.start ["a"])
                  (fun data w => (Returned (JS.VBool false), w))
                  (JS.VBool false) ["a"] eq_refl eq_refl eq_refl)).
Defined.







(** ** The list handler *)

Lemma apply_populate_keeps {W Data Doc} (opts : config W Data Doc) (q : Query) :
  q_conditions (apply_populate opts q) = q_conditions q
  /\ q_skip (apply_populate opts q) = q_skip q
  /\ q_limit (apply_populate opts q) = q_limit q.
Proof.
  unfold apply_populate. destruct (0 <? length (populate_fields opts))%nat; [|done].
  generalize (populate_fields opts) as fields. intros fields. revert q.
  induction fields as [|f fields IH]; intros q; [done|].
  simpl. destruct (IH (Query_populate q f)) as (-> & -> & ->). done.
Qed.

Lemma foldl_populate (fields : list string) (q : Query) :
  foldl Query_populate q fields
  = {| q_conditions := q_conditions q; q_projection := q_projection q;
       q_sort := q_sort q; q_populate := q_populate q ++ fields;
       q_skip := q_skip q; q_limit := q_limit q |}.
Proof.
  revert q. induction fields as [|f fields IH]; intros q; simpl.
  - rewrite app_nil_r. by destruct q.
  - rewrite IH. simpl. by rewrite <- app_assoc.
Qed.

Lemma apply_populate_eq {W Data Doc} (opts : config W Data Doc) (q : Query) :
  apply_populate opts q
  = {| q_conditions := q_conditions q; q_projection := q_projection q;
       q_sort := q_sort q; q_populate := q_populate q ++ populate_fields opts;
       q_skip := q_skip q; q_limit := q_limit q |}.
Proof.
  unfold apply_populate.
  destruct (populate_fields opts) as [|f fields] eqn:E.
  - simpl. rewrite app_nil_r. by destruct q.
  - change (0 <? length (f :: fields))%nat with true. cbv iota.
    apply foldl_populate.
Qed.

Lemma list_windowed_query {W Data Doc} (opts : config W Data Doc)
    (query : gmap string qvalue) (sort : string) :
  (if pagination_enabled opts
   then Query_limit
          (Query_skip
             (apply_populate opts
                (Query_sort (find (buildFilter opts query) (projection opts)) sort))
             (JS.mul (JS.sub (resolve_page query) 1) (resolve_limit opts query)))
          (resolve_limit opts query)
   else apply_populate opts
          (Query_sort (find (buildFilter opts query) (projection opts)) sort))
  = list_query opts query sort.
Proof.
  rewrite apply_populate_eq. unfold list_query.
  destruct (pagination_enabled opts); reflexivity.
Qed.

(** A list request whose [sort] is an array: [applySort] throws before the
    accessor is called. *)
Lemma list_handler_sort_array {W Data Doc} (model : accessor W Data Doc)
    (opts : config W Data Doc) (race : bool) (req : request Data)
    (s : state W Data Doc) (l : list string) :
  query req !! "sort" = Some (QArr l) ->
  list_handler model opts race req s
  = (Some {| status := 500;
             json := ErrorBody true "query.sort.replace is not a function" |}, s).
Proof.
  intros Hsort. unfold list_handler, applySort. rewrite Hsort. reflexivity.
Qed.

(** A list request whose read throws before it returns a promise. *)
Lemma list_handler_read_throws {W Data Doc} (model : accessor W Data Doc)
    (opts : config W Data Doc) (race : bool) (req : request Data)
    (s : state W Data Doc) sort e w1 :
  applySort opts (query req) = Returned sort ->
  exec_find model (list_query opts (query req) sort) (world s) = (Thrown true e, w1) ->
  list_handler model opts race req s
  = (catch_response "Failed to fetch documents" 500 e,
     {| world := w1;
        log := log s ++ [CallExec (list_query opts (query req) sort)] |}).
Proof.
  intros Hsort Hexec. unfold list_handler. rewrite Hsort. run_handler.
  rewrite (list_windowed_query opts (query req) sort), Hexec. reflexivity.
Qed.

(** The list handler, given the outcomes of its two accessor calls. *)
Lemma list_handler_run {W Data Doc} (model : accessor W Data Doc)
    (opts : config W Data Doc) (race : bool) (req : request Data)
    (s : state W Data Doc) sort ra w1 rb w2 :
  applySort opts (query req) = Returned sort ->
  exec_find model (list_query opts (query req) sort) (world s) = (ra, w1) ->
  (forall e, ra <> Thrown true e) ->
  countDocuments model (buildFilter opts (query req)) w1 = (rb, w2) ->
  (list_handler model opts race req s).2
  = {| world := w2;
       log := log s ++ [CallExec (list_query opts (query req) sort);
                        CallCountDocuments (buildFilter opts (query req))] |}
  /\ (forall eb, rb = Thrown true eb ->
        (list_handler model opts race req s).1
        = catch_response "Failed to fetch documents" 500 eb)
  /\ (forall ea, ra = Thrown false ea -> forall y, rb = Returned y ->
        (list_handler model opts race req s).1
        = catch_response "Failed to fetch documents" 500 ea)
  /\ (forall x, ra = Returned x -> forall eb, rb = Thrown false eb ->
        (list_handler model opts race req s).1
        = catch_response "Failed to fetch documents" 500 eb)
  /\ (forall ea, ra = Thrown false ea -> forall eb, rb = Thrown false eb ->
        (list_handler model opts race req s).1
        = catch_response "Failed to fetch documents" 500 (if race then ea else eb))
  /\ (forall data, ra = Returned data -> forall count, rb = Returned count ->
        (list_handler model opts race req s).1
        = Some {| status := 200;
                  json := ListBody data
                    (if pagination_enabled opts
                     then Some {| total := count;
                                  page := resolve_page (query req);
                                  pr_limit := resolve_limit opts (query req);
                                  totalPages :=
                                    JS.ceil_div count (resolve_limit opts (query req));
                                  hasNextPage :=
                                    resolve_page (query req)
                                    <? JS.ceil_div count
                                         (resolve_limit opts (query req)) |}
                     else None) |}).
Proof.
  intros Hsort Hexec Hasync Hcount. unfold list_handler. rewrite Hsort. run_handler.
  rewrite (list_windowed_query opts (query req) sort), Hexec. simpl.
  assert (Hlog : forall (l : list (call Data Doc)) a b,
             ((l ++ [a]) ++ [b])%list = (l ++ [a; b])%list).
  { intros l a b. by rewrite <- app_assoc. }
  destruct ra as [x | [] ea]; [| by destruct (Hasync ea) |];
    rewrite Hcount; simpl; rewrite Hlog;
    (destruct rb as [y | [] eb]; simpl;
     (split; [try reflexivity | repeat split; intros; simplify_eq; try reflexivity])).
  - destruct (pagination_enabled opts); reflexivity.
  - destruct (pagination_enabled opts); reflexivity.
Qed.




(** C2 as stated fails: with pagination disabled the handler still invokes
    the count, and a failing count turns the answer into a 500. *)
Lemma list_unpaginated_counterexample :
  let opts := Memory.opts_of
    {| o_pagination := Some {| po_enabled := JS.VBool false;
                               po_defaultLimit := JS.VUndefined;
                               po_maxLimit := JS.VUndefined |};
       o_sort := None; o_filter := None; o_projection := None;
       o_populate := None; o_validateBody := None; o_hooks := None |} in
  let req := Memory.req [] None "" in
  pagination_enabled opts = false
  /\ existsb is_count
       (log (list_handler Memory.model opts true req (Memory.start ["a"; "b"])).2)
     = true
  /\ (list_handler Memory.model_count_fails opts true req (Memory.start ["a"; "b"])).1
     = Some {| status := 500; json := ErrorBody true "count failed" |}.
Proof. vm_compute. repeat split. Qed.

(** C2, amended: with pagination disabled, for a request whose [sort] is
    absent or a string and whose read does not throw before returning its
    promise, the handler invokes the read without skip or limit and then the
    count of the same filter, and nothing else.  When both return it answers
    200 with the data alone, the count being left out; when one of them fails
    and no thrown value is [null] or [undefined], it answers 500 with the
    error envelope carrying the message of a failure, or "Failed to fetch
    documents" when that failure has none. *)
Theorem list_unpaginated_spec {W Data Doc} (model : accessor W Data Doc)
    (opts : config W Data Doc) (race : bool) (req : request Data)
    (s : state W Data Doc) sort ra w1 rb w2 :
  pagination_enabled opts = false ->
  let filter := buildFilter opts (query req) in
  let unwindowed := list_query opts (query req) sort in
  let result := list_handler model opts race req s in
  applySort opts (query req) = Returned sort ->
  exec_find model unwindowed (world s) = (ra, w1) ->
  (forall e, ra <> Thrown true e) ->
  countDocuments model filter w1 = (rb, w2) ->
  result.2
  = {| world := w2;
       log := log s ++ [CallExec unwindowed; CallCountDocuments filter] |}
  /\ q_conditions unwindowed = Where filter
  /\ q_skip unwindowed = None
  /\ q_limit unwindowed = None
  /\ (forall data count, ra = Returned data -> rb = Returned count ->
        result.1 = Some {| status := 200; json := ListBody data None |})
  /\ ((exists sa ea, ra = Thrown sa ea) \/ (exists sb eb, rb = Thrown sb eb) ->
      (forall sa, ra <> Thrown sa Nullish) ->
      (forall sb, rb <> Thrown sb Nullish) ->
      exists message,
        result.1
        = Some {| status := 500;
                  json := ErrorBody true
                    (message_of message "Failed to fetch documents") |}
        /\ ((exists sa, ra = Thrown sa (Exception message))
            \/ (exists sb, rb = Thrown sb (Exception message)))).
Proof.
  intros Hen filter unwindowed result Hsort Hexec Hasync Hcount.
  destruct (list_handler_run model opts race req s sort _ _ _ _
              Hsort Hexec Hasync Hcount) as (Hstate & H1 & H2 & H3 & H4 & Hok).
  subst unwindowed. unfold list_query at 2 3 4. rewrite Hen. simpl.
  split; [exact Hstate|]. split; [reflexivity|].
  split; [reflexivity|]. split; [reflexivity|]. split.
  - intros data count -> ->. subst result.
    rewrite (Hok data eq_refl count eq_refl), Hen. reflexivity.
  - intros Hfail Hna Hnb. subst result.
    destruct ra as [x | sa [| ma]]; [| by destruct (Hna sa) |];
      (destruct rb as [y | sb [| mb]]; [| by destruct (Hnb sb) |]).
    + destruct Hfail as [(? & ? & ?) | (? & ? & ?)]; discriminate.
    + exists mb. split; [| right; by eexists].
      destruct sb.
      * rewrite (H1 _ eq_refl). apply catch_exception.
      * rewrite (H3 x eq_refl _ eq_refl). apply catch_exception.
    + exists ma. split; [| left; by eexists].
      destruct sa; [by destruct (Hasync (Exception ma))|].
      rewrite (H2 _ eq_refl y eq_refl). apply catch_exception.
    + destruct sa; [by destruct (Hasync (Exception ma))|].
      destruct sb.
      * exists mb. split; [| right; by eexists].
        rewrite (H1 _ eq_refl). apply catch_exception.
      * rewrite (H4 _ eq_refl _ eq_refl). destruct race.
        -- exists ma. split; [apply catch_exception | left; by eexists].
        -- exists mb. split; [apply catch_exception | right; by eexists].
Qed.

Lemma list_unpaginated_spec_witness :
  let opts := Memory.opts_of
    {| o_pagination := Some {| po_enabled := JS.VBool false;
                               po_defaultLimit := JS.VUndefined;
                               po_maxLimit := JS.VUndefined |};
       o_sort := None; o_filter := None; o_projection := None;
       o_populate := None; o_validateBody := None; o_hooks := None |} in
  let req := Memory.req [("limit", "1")] None "" in
  (list_handler Memory.model opts true req (Memory.start ["a"; "b"])).1
  = Some {| status := 200; json := ListBody ["a"; "b"] None |}
  /\ (list_handler Memory.model_count_fails opts true req (Memory.start ["a"; "b"])).1
     = Some {| status := 500; json := ErrorBody true "count failed" |}.
Proof.
  intros opts req. split.
  - destruct (list_unpaginated_spec Memory.model opts true req (Memory.start ["a"; "b"])
                "-createdAt" (Returned ["a"; "b"]) ["a"; "b"] (Returned 2) ["a"; "b"])
      as (_ & _ & _ & _ & Hok & _);
      [reflexivity | reflexivity | vm_compute; reflexivity | discriminate
       | reflexivity |].
    by apply (Hok ["a"; "b"] 2).
  - destruct (list_unpaginated_spec Memory.model_count_fails opts true req
                (Memory.start ["a"; "b"])
                "-createdAt" (Returned ["a"; "b"]) ["a"; "b"]
                (Thrown false (Exception (Some "count failed"))) ["a"; "b"])
      as (_ & _ & _ & _ & _ & Hfail);
      [reflexivity | reflexivity | vm_compute; reflexivity | discriminate
       | reflexivity |].
    destruct Hfail as (message & Hresp & Hwhich).
    + right. by eexists _, _.
    + discriminate.
    + discriminate.
    + destruct Hwhich as [[sa Hsa] | [sb Hsb]]; [discriminate|].
      injection Hsb as _ <-. exact Hresp.
Defined.

(** ** Normalisation of the options *)

Lemma or_falsy (a b : JS.value) : JS.truthy a = false -> JS.or a b = b.
Proof. unfold JS.or. by intros ->. Qed.

Lemma strict_neq_false_spec (a : JS.value) :
  JS.strict_neq_false a = false <-> a = JS.VBool false.
Proof. destruct a as [| |[]| | | |]; simpl; split; (done || discriminate). Qed.

Lemma or_kept (a b : JS.value) : JS.truthy a = true -> JS.or a b = a.
Proof. unfold JS.or. by intros ->. Qed.

(** C10: a falsy [pagination.defaultLimit], [pagination.maxLimit] or
    [sort.default] is replaced by 20, 100 and '-createdAt', as is an absent
    one, and any other supplied value is kept; pagination and filtering are
    disabled by the value [false] alone, and enabled when the section is
    absent. *)
Theorem normalize_spec {W Data Doc} (o : options W Data Doc) :
  (forall p, o_pagination o = Some p ->
     (JS.truthy (po_defaultLimit p) = false ->
      pagination_defaultLimit (normalize o) = JS.VNum 20)
     /\ (JS.truthy (po_defaultLimit p) = true ->
         pagination_defaultLimit (normalize o) = po_defaultLimit p)
     /\ (JS.truthy (po_maxLimit p) = false ->
         pagination_maxLimit (normalize o) = JS.VNum 100)
     /\ (JS.truthy (po_maxLimit p) = true ->
         pagination_maxLimit (normalize o) = po_maxLimit p)
     /\ (pagination_enabled (normalize o) = false <-> po_enabled p = JS.VBool false))
  /\ (o_pagination o = None ->
      pagination_defaultLimit (normalize o) = JS.VNum 20
      /\ pagination_maxLimit (normalize o) = JS.VNum 100
      /\ pagination_enabled (normalize o) = true)
  /\ (forall so, o_sort o = Some so ->
      (JS.truthy (so_default so) = false ->
       sort_default (normalize o) = JS.VStr "-createdAt")
      /\ (JS.truthy (so_default so) = true ->
          sort_default (normalize o) = so_default so))
  /\ (o_sort o = None -> sort_default (normalize o) = JS.VStr "-createdAt")
  /\ (forall f, o_filter o = Some f ->
      (filter_enabled (normalize o) = false <-> fo_enabled f = JS.VBool false))
  /\ (o_filter o = None -> filter_enabled (normalize o) = true).
Proof.
  unfold normalize. simpl.
  split; [| split; [| split; [| split; [| split]]]].
  - intros p ->. simpl.
    split; [apply or_falsy|]. split; [apply or_kept|].
    split; [apply or_falsy|]. split; [apply or_kept|].
    apply strict_neq_false_spec.
  - intros ->. repeat split.
  - intros so ->. simpl. split; [apply or_falsy | apply or_kept].
  - intros ->. reflexivity.
  - intros f ->. simpl. apply strict_neq_false_spec.
  - intros ->. reflexivity.
Qed.

Lemma normalize_spec_witness :
  let falsy : options unit unit unit :=
    {| o_pagination := Some {| po_enabled := JS.VNum 0;
                               po_defaultLimit := JS.VNum 0;
                               po_maxLimit := JS.VNull |};
       o_sort := Some {| so_default := JS.VStr ""; so_allowed := None |};
       o_filter := Some {| fo_enabled := JS.VNull; fo_allowed := None |};
       o_projection := None; o_populate := None; o_validateBody := None;
       o_hooks := None |} in
  let disabled : options unit unit unit :=
    {| o_pagination := Some {| po_enabled := JS.VBool false;
                               po_defaultLimit := JS.VNum 5;
                               po_maxLimit := JS.VUndefined |};
       o_sort := Some {| so_default := JS.VStr "name"; so_allowed := None |};
       o_filter := Some {| fo_enabled := JS.VBool false; fo_allowed := None |};
       o_projection := None; o_populate := None; o_validateBody := None;
       o_hooks := None |} in
  (pagination_defaultLimit (normalize falsy) = JS.VNum 20
   /\ pagination_maxLimit (normalize falsy) = JS.VNum 100
   /\ sort_default (normalize falsy) = JS.VStr "-createdAt"
   /\ pagination_enabled (normalize falsy) = true
   /\ filter_enabled (normalize falsy) = true)
  /\ (pagination_enabled (normalize disabled) = false
      /\ filter_enabled (normalize disabled) = false
      /\ pagination_defaultLimit (normalize disabled) = JS.VNum 5
      /\ pagination_maxLimit (normalize disabled) = JS.VNum 100
      /\ sort_default (normalize disabled) = JS.VStr "name").
Proof.
  intros falsy disabled.
  destruct (normalize_spec falsy) as (Hp & _ & Hs & _ & Hf & _).
  destruct (Hp _ eq_refl) as (Hd & _ & Hm & _ & Hen).
  destruct (normalize_spec disabled) as (Hp' & _ & Hs' & _ & Hf' & _).
  destruct (Hp' _ eq_refl) as (_ & Hd' & Hm' & _ & Hen').
  split.
  - split; [apply Hd; reflexivity|].
    split; [apply Hm; reflexivity|].
    split; [apply (Hs _ eq_refl); reflexivity|].
    split.
    + apply not_false_is_true. intros E. apply Hen in E. discriminate.
    + apply not_false_is_true. intros E. apply (Hf _ eq_refl) in E. discriminate.
  - split; [apply Hen'; reflexivity|].
    split; [apply (Hf' _ eq_refl); reflexivity|].
    split; [apply Hd'; reflexivity|].
    split; [apply Hm'; reflexivity|].
    apply (Hs' _ eq_refl). reflexivity.
Defined.

(** The defaults of [autoCRUD(app, model, baseRoute)]. *)
Example normalize_defaults :
  typed (normalize (no_options (W := unit) (Data := unit) (Doc := unit)))
  = Some {| pagination_enabled := true; pagination_defaultLimit := 20;
            pagination_maxLimit := 100; sort_default := "-createdAt";
            sort_allowed := []; filter_enabled := true; filter_allowed := [];
            projection := ∅; populate_fields := []; validateBody := None;
            opts_hooks := no_hooks |}.
Proof. reflexivity. Qed.

(** ** Registration *)

(** Options of the declared types always yield the five handlers, and the
    limits they close over are not zero. *)
Lemma autoCRUD_registers {W Data Doc} (model : accessor W Data Doc)
    (o : options W Data Doc) opts :
  typed (normalize o) = Some opts ->
  autoCRUD model o
  = Some {| route_list := list_handler model opts;
            route_get_one := get_one_handler model opts;
            route_create := create_handler model opts;
            route_update := update_handler model opts;
            route_delete := delete_handler model opts |}
  /\ forall query, resolve_limit opts query <> 0.
Proof.
  intros Ht. split.
  - unfold autoCRUD. by rewrite Ht.
  - intros query. destruct (typed_normalize_nonzero o opts Ht) as (Hm & Hd & _).
    by apply resolve_limit_nonzero.
Qed.

(** * Further properties of the code *)

(** ** Limits, pages and windows *)

(** X1: With positive configured limits and a requested limit that is absent,
    non-numeric or not negative, the resolved limit lies in
    [[1, maxLimit]] and the skip offset is not negative. *)
Theorem resolve_limit_in_range {W Data Doc} (opts : config W Data Doc)
    (query : gmap string qvalue) :
  0 < pagination_maxLimit opts -> 0 < pagination_defaultLimit opts ->
  (forall n, JS.parseInt (JS.to_string (query !! "limit")) = Some n -> 0 <= n) ->
  1 <= resolve_limit opts query <= pagination_maxLimit opts
  /\ 0 <= (resolve_page query - 1) * resolve_limit opts query.
Proof.
  intros Hmax Hdef Hreq.
  assert (Hl : 1 <= resolve_limit opts query <= pagination_maxLimit opts).
  { unfold resolve_limit, JS.num_or.
    destruct (JS.parseInt (JS.to_string (query !! "limit"))) as [n|]; [|lia].
    specialize (Hreq n eq_refl). destruct (Z.eqb_spec n 0); lia. }
  split; [exact Hl|].
  assert (1 <= resolve_page query) by (unfold resolve_page; lia). nia.
Qed.

Lemma resolve_limit_in_range_witness :
  let opts := Memory.opts_of no_options in
  let query : gmap string qvalue := {["limit" := QStr "500"; "page" := QStr "3"]} in
  1 <= resolve_limit opts query <= 100
  /\ 0 <= (resolve_page query - 1) * resolve_limit opts query.
Proof.
  intros opts query.
  apply (resolve_limit_in_range opts query).
  - vm_compute. reflexivity.
  - vm_compute. reflexivity.
  - intros n Hn. vm_compute in Hn. injection Hn as <-. lia.
Defined.

(** X2: A negative requested limit reaches the accessor as it is when the
    maximum is positive: the window has a negative size and, beyond the
    first page, a negative offset. *)
Theorem resolve_limit_negative {W Data Doc} (opts : config W Data Doc)
    (query : gmap string qvalue) (n : Z) :
  0 < pagination_maxLimit opts ->
  JS.parseInt (JS.to_string (query !! "limit")) = Some n -> n < 0 ->
  resolve_limit opts query = n
  /\ (resolve_page query - 1) * resolve_limit opts query <= 0
  /\ (1 < resolve_page query ->
      (resolve_page query - 1) * resolve_limit opts query < 0).
Proof.
  intros Hmax Hp Hn.
  assert (Hl : resolve_limit opts query = n).
  { unfold resolve_limit, JS.num_or. rewrite Hp.
    destruct (Z.eqb_spec n 0); lia. }
  rewrite Hl.
  assert (1 <= resolve_page query) by (unfold resolve_page; lia).
  repeat split; [nia | intros; nia].
Qed.

Lemma resolve_limit_negative_witness :
  let opts := Memory.opts_of no_options in
  let query : gmap string qvalue := {["limit" := QStr "-5"; "page" := QStr "2"]} in
  resolve_limit opts query = -5
  /\ (resolve_page query - 1) * resolve_limit opts query <= 0
  /\ (1 < resolve_page query ->
      (resolve_page query - 1) * resolve_limit opts query < 0).
Proof.
  intros opts query.
  apply (resolve_limit_negative opts query (-5)).
  - vm_compute. reflexivity.
  - vm_compute. reflexivity.
  - lia.
Defined.

Lemma lt_ceil_div (p a b : Z) : 0 < b -> p < JS.ceil_div a b <-> p * b < a.
Proof.
  intros Hb.
  destruct (ceil_div_is_ceiling a b) as [[_ Hc] | [Hneg _]]; [lia | | lia].
  split; intros H; nia.
Qed.

Lemma ceil_div_zero_iff (a b : Z) : 0 < b -> 0 <= a -> JS.ceil_div a b = 0 <-> a = 0.
Proof.
  intros Hb Ha.
  destruct (ceil_div_is_ceiling a b) as [[_ Hc] | [Hneg _]]; [lia | | lia].
  split; intros H; nia.
Qed.

Lemma ceil_div_nonneg (a b : Z) : 0 < b -> 0 <= a -> 0 <= JS.ceil_div a b.
Proof.
  intros Hb Ha.
  destruct (ceil_div_is_ceiling a b) as [[_ Hc] | [Hneg _]]; [lia | | lia].
  nia.
Qed.

(** ** The list handler on every path *)

Lemma applySort_string {W Data Doc} (opts : config W Data Doc)
    (query : gmap string qvalue) :
  string_sort query -> exists sort, applySort opts query = Returned sort.
Proof.
  unfold string_sort, applySort. intros Hs.
  destruct (query !! "sort") as [[requested | l] |]; [| by destruct (Hs l) | by eexists].
  destruct (negb (String.eqb requested "")); [| by eexists].
  destruct (_ && _); by eexists.
Qed.

(** X3: A list request whose [sort] is absent or a string resolves its sort
    and then calls the accessor: first the read of [list_query] (the resolved
    filter, the projection, the resolved sort, every populate field in order,
    and the window when pagination is enabled), then the count of the same
    filter, and nothing else; the count is left out only when the read throws
    before returning its promise.  A request whose [sort] is an array calls
    nothing and is answered 500 with the TypeError's message. *)
Theorem list_handler_calls {W Data Doc} (model : accessor W Data Doc)
    (opts : config W Data Doc) (race : bool) (req : request Data)
    (s : state W Data Doc) :
  (string_sort (query req) ->
   exists sort, applySort opts (query req) = Returned sort)
  /\ (forall sort ra w1,
        applySort opts (query req) = Returned sort ->
        exec_find model (list_query opts (query req) sort) (world s) = (ra, w1) ->
        ((forall e, ra <> Thrown true e) ->
         (list_handler model opts race req s).2
         = {| world := (countDocuments model (buildFilter opts (query req)) w1).2;
              log := log s ++ [CallExec (list_query opts (query req) sort);
                               CallCountDocuments (buildFilter opts (query req))] |})
        /\ (forall e, ra = Thrown true e ->
            (list_handler model opts race req s).2
            = {| world := w1;
                 log := log s ++ [CallExec (list_query opts (query req) sort)] |}))
  /\ (forall l, query req !! "sort" = Some (QArr l) ->
        list_handler model opts race req s
        = (Some {| status := 500;
                   json := ErrorBody true "query.sort.replace is not a function" |},
           s)).
Proof.
  split; [apply applySort_string | split].
  - intros sort ra w1 Hsort Hexec. split.
    + intros Hasync.
      destruct (countDocuments model (buildFilter opts (query req)) w1)
        as [rb w2] eqn:Hcount.
      apply (list_handler_run model opts race req s sort ra w1 rb w2
               Hsort Hexec Hasync Hcount).
    + intros e ->.
      by rewrite (list_handler_read_throws model opts race req s sort e w1 Hsort Hexec).
  - intros l. apply list_handler_sort_array.
Qed.

Lemma list_handler_calls_witness :
  let opts := Memory.opts_of no_options in
  (list_handler Memory.model_read_throws opts true
     (Memory.req [("role", "admin")] None "") (Memory.start ["a"])).2
  = {| world := ["a"];
       log := [CallExec (list_query opts {["role" := QStr "admin"]} "-createdAt")] |}
  /\ list_handler Memory.model opts true
       (Request {["sort" := QArr ["name"; "age"]]} None "") (Memory.start ["a"])
     = (Some {| status := 500;
                json := ErrorBody true "query.sort.replace is not a function" |},
        Memory.start ["a"]).
Proof.
  intros opts. split.
  - apply (proj2 (proj1 (proj2 (list_handler_calls Memory.model_read_throws opts true
                                  (Memory.req [("role", "admin")] None "")
                                  (Memory.start ["a"])))
                    "-createdAt" (Thrown true (Exception (Some "not connected"))) ["a"]
                    eq_refl eq_refl)
             (Exception (Some "not connected")) eq_refl).
  - apply (proj2 (proj2 (list_handler_calls Memory.model opts true
                           (Request {["sort" := QArr ["name"; "age"]]} None "")
                           (Memory.start ["a"])))
             ["name"; "age"]).
    reflexivity.
Defined.

(** X4: For a list request whose sort resolves and whose read does not throw
    before returning its promise, a read or a count that fails with a value
    other than [null] or [undefined] makes the answer 500 with the thrown
    message, or "Failed to fetch documents" when there is none; when both
    promises reject the message is that of the rejection that settles first.
    When the failure is [null] or [undefined], no response is sent. *)
Theorem list_handler_failure {W Data Doc} (model : accessor W Data Doc)
    (opts : config W Data Doc) (race : bool) (req : request Data)
    (s : state W Data Doc) sort ra w1 rb w2 :
  applySort opts (query req) = Returned sort ->
  exec_find model (list_query opts (query req) sort) (world s) = (ra, w1) ->
  (forall e, ra <> Thrown true e) ->
  countDocuments model (buildFilter opts (query req)) w1 = (rb, w2) ->
  (forall ma y, ra = Thrown false (Exception ma) -> rb = Returned y ->
     (list_handler model opts race req s).1
     = Some {| status := 500;
               json := ErrorBody true (message_of ma "Failed to fetch documents") |})
  /\ (forall x sb mb, ra = Returned x -> rb = Thrown sb (Exception mb) ->
        (list_handler model opts race req s).1
        = Some {| status := 500;
                  json := ErrorBody true (message_of mb "Failed to fetch documents") |})
  /\ (forall ma mb, ra = Thrown false (Exception ma) ->
        rb = Thrown false (Exception mb) ->
        (list_handler model opts race req s).1
        = Some {| status := 500;
                  json := ErrorBody true
                    (message_of (if race then ma else mb)
                                "Failed to fetch documents") |})
  /\ (forall y, ra = Thrown false Nullish -> rb = Returned y ->
        (list_handler model opts race req s).1 = None)
  /\ (forall x sb, ra = Returned x -> rb = Thrown sb Nullish ->
        (list_handler model opts race req s).1 = None).
Proof.
  intros Hsort Hexec Hasync Hcount.
  destruct (list_handler_run model opts race req s sort ra w1 rb w2
              Hsort Hexec Hasync Hcount) as (_ & H1 & H2 & H3 & H4 & _).
  split; [| split; [| split; [| split]]].
  - intros ma y -> ->. rewrite (H2 _ eq_refl y eq_refl). apply catch_exception.
  - intros x [] mb -> ->.
    + rewrite (H1 _ eq_refl). apply catch_exception.
    + rewrite (H3 x eq_refl _ eq_refl). apply catch_exception.
  - intros ma mb -> ->. rewrite (H4 _ eq_refl _ eq_refl).
    destruct race; apply catch_exception.
  - intros y -> ->. by rewrite (H2 _ eq_refl y eq_refl).
  - intros x [] -> ->.
    + by rewrite (H1 _ eq_refl).
    + by rewrite (H3 x eq_refl _ eq_refl).
Qed.

Lemma list_handler_failure_witness :
  (list_handler Memory.model_count_fails (Memory.opts_of no_options) true
     (Memory.req [("page", "2")] None "") (Memory.start ["a"; "b"])).1
  = Some {| status := 500; json := ErrorBody true "count failed" |}.
Proof.
  apply (proj1 (proj2 (list_handler_failure Memory.model_count_fails
                         (Memory.opts_of no_options) true
                         (Memory.req [("page", "2")] None "") (Memory.start ["a"; "b"])
                         "-createdAt" (Returned []) ["a"; "b"]
                         (Thrown false (Exception (Some "count failed"))) ["a"; "b"]
                         eq_refl ltac:(vm_compute; reflexivity)
                         ltac:(discriminate) ltac:(vm_compute; reflexivity)))
           [] false (Some "count failed") eq_refl eq_refl).
Defined.

(** X5: In a paginated answer with a positive limit, [hasNextPage] is true
    exactly when documents remain beyond the window, that is when
    [skip + limit < total]; and for a count that is not negative,
    [totalPages] is not negative and is 0 exactly when the count is 0. *)
Theorem list_has_next_page {W Data Doc} (model : accessor W Data Doc)
    (opts : config W Data Doc) (race : bool) (req : request Data)
    (s : state W Data Doc) sort data w1 count w2 :
  pagination_enabled opts = true ->
  0 < resolve_limit opts (query req) ->
  applySort opts (query req) = Returned sort ->
  exec_find model (list_query opts (query req) sort) (world s) = (Returned data, w1) ->
  countDocuments model (buildFilter opts (query req)) w1 = (Returned count, w2) ->
  exists p,
    (list_handler model opts race req s).1
    = Some {| status := 200; json := ListBody data (Some p) |}
    /\ total p = count
    /\ (hasNextPage p = true
        <-> (page p - 1) * pr_limit p + pr_limit p < total p)
    /\ (0 <= count -> 0 <= totalPages p /\ (totalPages p = 0 <-> count = 0))
    /\ (totalPages p <= page p -> hasNextPage p = false).
Proof.
  intros Hen Hpos Hsort Hexec Hcount.
  destruct (list_handler_run model opts race req s sort _ _ _ _
              Hsort Hexec ltac:(discriminate) Hcount) as (_ & _ & _ & _ & _ & Hok).
  specialize (Hok data eq_refl count eq_refl). rewrite Hen in Hok.
  eexists. split; [exact Hok|]. simpl.
  split; [reflexivity|]. split; [| split].
  - rewrite Z.ltb_lt, (lt_ceil_div _ _ _ Hpos). lia.
  - intros Hc. split; [by apply ceil_div_nonneg | by apply ceil_div_zero_iff].
  - intros Hle. apply Z.ltb_ge. exact Hle.
Qed.

Lemma list_has_next_page_witness :
  let opts := Memory.opts_of no_options in
  let req := Memory.req [("page", "2"); ("limit", "2")] None "" in
  exists p,
    (list_handler Memory.model opts true req (Memory.start ["a"; "b"; "c"; "d"; "e"])).1
    = Some {| status := 200; json := ListBody ["c"; "d"] (Some p) |}
    /\ total p = 5
    /\ hasNextPage p = true.
Proof.
  intros opts req.
  destruct (list_has_next_page Memory.model opts true req
              (Memory.start ["a"; "b"; "c"; "d"; "e"]) "-createdAt"
              ["c"; "d"] ["a"; "b"; "c"; "d"; "e"] 5 ["a"; "b"; "c"; "d"; "e"])
    as (p & Hp & Ht & Hnext & _).
  - reflexivity.
  - vm_compute. reflexivity.
  - reflexivity.
  - vm_compute. reflexivity.
  - vm_compute. reflexivity.
  - exists p. split; [exact Hp|]. split; [exact Ht|].
    apply Hnext. rewrite Ht.
    pose proof Hp as Hq. vm_compute in Hq. injection Hq as <-. vm_compute. reflexivity.
Defined.

(** ** The get-one handler *)

Lemma get_one_populated {W Data Doc} (opts : config W Data Doc) (id : string) :
  apply_populate opts (findById id (projection opts)) = get_one_query opts id.
Proof. rewrite apply_populate_eq. reflexivity. Qed.

(** X6: A get-one request with an id makes one call, the read of
    [get_one_query] (by id, with the projection and every populate field in
    order, unsorted and unwindowed), and answers 200 with the document, 404
    "Document not found" when there is none, and, when the read fails with a
    value other than [null] or [undefined], 500 with the thrown message or
    "Failed to fetch document"; when the read fails with [null] or
    [undefined] no response is sent. *)
Theorem get_one_spec {W Data Doc} (model : accessor W Data Doc)
    (opts : config W Data Doc) (req : request Data) (s : state W Data Doc)
    (id : string) r (w' : W) :
  params_id req = Some id -> id <> "" ->
  exec_findById model (get_one_query opts id) (world s) = (r, w') ->
  (get_one_handler model opts req s).2
  = {| world := w'; log := log s ++ [CallExec (get_one_query opts id)] |}
  /\ (forall doc, r = Returned (Some doc) ->
        (get_one_handler model opts req s).1
        = Some {| status := 200; json := DocBody doc |})
  /\ (r = Returned None ->
        (get_one_handler model opts req s).1
        = Some {| status := 404; json := ErrorBody true "Document not found" |})
  /\ (forall sync message, r = Thrown sync (Exception message) ->
        (get_one_handler model opts req s).1
        = Some {| status := 500;
                  json := ErrorBody true
                    (message_of message "Failed to fetch document") |})
  /\ (forall sync, r = Thrown sync Nullish ->
        (get_one_handler model opts req s).1 = None).
Proof.
  intros Hid Hne Hexec. unfold get_one_handler.
  rewrite Hid, (truthy_id _ Hne). simpl. rewrite get_one_populated.
  run_handler. rewrite Hexec. simpl.
  split; [| split; [| split; [| split]]].
  - destruct r as [[d|]|sync e]; reflexivity.
  - intros doc ->. reflexivity.
  - intros ->. reflexivity.
  - intros sync message ->. by rewrite message_or_exception.
  - intros sync ->. reflexivity.
Qed.

Lemma get_one_spec_witness :
  let opts := Memory.opts_of no_options in
  (get_one_handler Memory.model opts (Memory.req [] (Some "b") "") (Memory.start ["a"; "b"])).1
  = Some {| status := 200; json := DocBody "b" |}
  /\ (get_one_handler Memory.model opts (Memory.req [] (Some "z") "") (Memory.start ["a"; "b"])).1
     = Some {| status := 404; json := ErrorBody true "Document not found" |}.
Proof.
  intros opts. split.
  - apply (proj1 (proj2 (get_one_spec Memory.model opts
                           (Memory.req [] (Some "b") "") (Memory.start ["a"; "b"])
                           "b" (Returned (Some "b")) ["a"; "b"]
                           eq_refl ltac:(discriminate) ltac:(vm_compute; reflexivity)))
             "b" eq_refl).
  - apply (proj1 (proj2 (proj2 (get_one_spec Memory.model opts
                           (Memory.req [] (Some "z") "") (Memory.start ["a"; "b"])
                           "z" (Returned None) ["a"; "b"]
                           eq_refl ltac:(discriminate) ltac:(vm_compute; reflexivity))))
             eq_refl).
Defined.

(** ** Requests without an id *)

(** X7: A get-one, update or delete request whose id is missing or empty is
    answered 400 "ID is required" and leaves the state as it was: no accessor
    operation and no hook is invoked. *)
Theorem missing_id_rejected {W Data Doc} (model : accessor W Data Doc)
    (opts : config W Data Doc) (req : request Data) (s : state W Data Doc) :
  params_id req = None \/ params_id req = Some "" ->
  get_one_handler model opts req s
  = (Some {| status := 400; json := ErrorBody true "ID is required" |}, s)
  /\ update_handler model opts req s
     = (Some {| status := 400; json := ErrorBody true "ID is required" |}, s)
  /\ delete_handler model opts req s
     = (Some {| status := 400; json := ErrorBody true "ID is required" |}, s).
Proof.
  intros Hid. unfold get_one_handler, update_handler, delete_handler.
  destruct Hid as [-> | ->]; repeat split.
Qed.

Lemma missing_id_rejected_witness :
  let opts := Memory.opts_of
    {| o_pagination := None; o_sort := None; o_filter := None;
       o_projection := None; o_populate := None; o_validateBody := None;
       o_hooks := Some
         {| beforeCreate := None; afterCreate := None;
            beforeUpdate := Some (Memory.failing "not reached");
            afterUpdate := None;
            beforeDelete := Some (Memory.failing "not reached");
            afterDelete := None |} |} in
  delete_handler Memory.model opts (Memory.req [] None "") (Memory.start ["a"])
  = (Some {| status := 400; json := ErrorBody true "ID is required" |}, Memory.start ["a"]).
Proof.
  intros opts.
  apply (proj2 (proj2 (missing_id_rejected Memory.model opts
                         (Memory.req [] None "") (Memory.start ["a"])
                         (or_introl eq_refl)))).
Defined.

(** ** The write handlers, path by path *)

(** X8: A create request that passes validation, whose hooks return and whose
    store operation returns, is answered 201.  What is persisted is the body
    as the before-create hook left it, and what is sent is the persisted
    document as the after-create hook left it; the calls are made in the
    order validator, before-hook, create, after-hook. *)
Theorem create_success {W Data Doc} (model : accessor W Data Doc)
    (opts : config W Data Doc) (req : request Data) (s : state W Data Doc)
    w1 l1 data w2 l2 doc w3 doc' w4 l3 :
  validation_passed (validateBody opts) (body req) (world s) w1 l1 ->
  hook_ran (beforeCreate (opts_hooks opts)) CallBeforeCreate
           req (body req) (body req) w1 data w2 l2 ->
  create model data w2 = (Returned doc, w3) ->
  hook_ran (afterCreate (opts_hooks opts)) CallAfterCreate
           req doc doc w3 doc' w4 l3 ->
  create_handler model opts req s
  = (Some {| status := 201; json := DocBody doc' |},
     {| world := w4; log := log s ++ l1 ++ l2 ++ [CallCreate data] ++ l3 |}).
Proof.
  intros Hval Hbefore Hcreate Hafter.
  unfold create_handler, validation_passed, hook_ran in *.
  destruct (validateBody opts) as [validate|];
    [destruct Hval as (r & Hr & Htruthy & ->) | destruct Hval as [-> ->]];
    (destruct (beforeCreate (opts_hooks opts)) as [before|];
      [destruct Hbefore as [Hb ->] | destruct Hbefore as (-> & -> & ->)]);
    (destruct (afterCreate (opts_hooks opts)) as [after|];
      [destruct Hafter as [Ha ->] | destruct Hafter as (-> & -> & ->)]);
    run_handler;
    rewrite ?Hr; simpl; rewrite ?Htruthy; simpl;
    rewrite ?Hb; simpl; rewrite Hcreate; simpl; rewrite ?Ha;
    tidy_log.
Qed.

Lemma create_success_witness :
  let opts := Memory.opts_of
    {| o_pagination := None; o_sort := None; o_filter := None;
       o_projection := None; o_populate := None;
       o_validateBody := Some (fun data w => (Returned (JS.VBool true), w));
       o_hooks := Some
         {| beforeCreate := Some (fun _ data w => (Returned (data ++ "!"), w));
            afterCreate := None; beforeUpdate := None; afterUpdate := None;
            beforeDelete := None; afterDelete := None |} |} in
  create_handler Memory.model opts (Memory.req [] None "c") (Memory.start ["a"])
  = (Some {| status := 201; json := DocBody "c!" |},
     {| world := ["a"; "c!"];
        log := [CallValidateBody "c"; CallBeforeCreate "c"; CallCreate "c!"] |}).
Proof.
  intros opts.
  apply (create_success Memory.model opts (Memory.req [] None "c") (Memory.start ["a"])
           ["a"] [CallValidateBody "c"] "c!" ["a"] [CallBeforeCreate "c"]
           "c!" ["a"; "c!"] "c!" ["a"; "c!"] []).
  - exists (JS.VBool true). repeat split.
  - split; reflexivity.
  - reflexivity.
  - repeat split.
Defined.

(** X9: An update request with an id whose hooks return and whose store
    operation finds the document is answered 200 with the updated document as
    the after-update hook left it.  The store is called with the body as the
    before-update hook left it and with [{new: true, runValidators: true}]. *)
Theorem update_success {W Data Doc} (model : accessor W Data Doc)
    (opts : config W Data Doc) (req : request Data) (s : state W Data Doc)
    id data w1 l1 doc w2 doc' w3 l2 :
  params_id req = Some id -> id <> "" ->
  hook_ran (beforeUpdate (opts_hooks opts)) CallBeforeUpdate
           req (body req) (body req) (world s) data w1 l1 ->
  findByIdAndUpdate model id data {| new := true; runValidators := true |} w1
  = (Returned (Some doc), w2) ->
  hook_ran (afterUpdate (opts_hooks opts)) CallAfterUpdate
           req doc doc w2 doc' w3 l2 ->
  update_handler model opts req s
  = (Some {| status := 200; json := DocBody doc' |},
     {| world := w3;
        log := log s ++ l1
               ++ [CallFindByIdAndUpdate id data
                     {| new := true; runValidators := true |}]
               ++ l2 |}).
Proof.
  intros Hid Hne Hbefore Hupd Hafter.
  unfold update_handler, hook_ran in *. rewrite Hid, (truthy_id _ Hne).
  destruct (beforeUpdate (opts_hooks opts)) as [before|];
    [destruct Hbefore as [Hb ->] | destruct Hbefore as (-> & -> & ->)];
    (destruct (afterUpdate (opts_hooks opts)) as [after|];
      [destruct Hafter as [Ha ->] | destruct Hafter as (-> & -> & ->)]);
    run_handler;
    rewrite ?Hb; simpl; rewrite Hupd; simpl; rewrite ?Ha;
    tidy_log.
Qed.

Lemma update_success_witness :
  update_handler Memory.model (Memory.opts_of no_options)
    (Memory.req [] (Some "a") "z") (Memory.start ["a"; "b"])
  = (Some {| status := 200; json := DocBody "z" |},
     {| world := ["z"; "b"];
        log := [CallFindByIdAndUpdate "a" "z"
                  {| new := true; runValidators := true |}] |}).
Proof.
  apply (update_success Memory.model (Memory.opts_of no_options)
           (Memory.req [] (Some "a") "z") (Memory.start ["a"; "b"])
           "a" "z" ["a"; "b"] [] "z" ["z"; "b"] "z" ["z"; "b"] []).
  - reflexivity.
  - discriminate.
  - repeat split.
  - vm_compute. reflexivity.
  - repeat split.
Defined.

(** X10: A delete request with an id whose hooks return and whose store operation
    finds the document is answered 200 with
    [{success: true, message: "Document deleted successfully", id}]. *)
Theorem delete_success {W Data Doc} (model : accessor W Data Doc)
    (opts : config W Data Doc) (req : request Data) (s : state W Data Doc)
    id w1 l1 doc w2 w3 l2 :
  params_id req = Some id -> id <> "" ->
  hook_ran (beforeDelete (opts_hooks opts)) CallBeforeDelete
           req id tt (world s) tt w1 l1 ->
  findByIdAndDelete model id w1 = (Returned (Some doc), w2) ->
  hook_ran (afterDelete (opts_hooks opts)) CallAfterDelete
           req id tt w2 tt w3 l2 ->
  delete_handler model opts req s
  = (Some {| status := 200;
        json := DeletedBody true "Document deleted successfully" id |},
     {| world := w3;
        log := log s ++ l1 ++ [CallFindByIdAndDelete id] ++ l2 |}).
Proof.
  intros Hid Hne Hbefore Hdel Hafter.
  unfold delete_handler, hook_ran in *. rewrite Hid, (truthy_id _ Hne).
  destruct (beforeDelete (opts_hooks opts)) as [before|];
    [destruct Hbefore as [Hb ->] | destruct Hbefore as (_ & -> & ->)];
    (destruct (afterDelete (opts_hooks opts)) as [after|];
      [destruct Hafter as [Ha ->] | destruct Hafter as (_ & -> & ->)]);
    run_handler;
    rewrite ?Hb; simpl; rewrite Hdel; simpl; rewrite ?Ha;
    tidy_log.
Qed.

Lemma delete_success_witness :
  delete_handler Memory.model (Memory.opts_of no_options)
    (Memory.req [] (Some "a") "") (Memory.start ["a"; "b"])
  = (Some {| status := 200;
        json := DeletedBody true "Document deleted successfully" "a" |},
     {| world := ["b"]; log := [CallFindByIdAndDelete "a"] |}).
Proof.
  apply (delete_success Memory.model (Memory.opts_of no_options)
           (Memory.req [] (Some "a") "") (Memory.start ["a"; "b"])
           "a" ["a"; "b"] [] "a" ["b"] ["b"] []).
  - reflexivity.
  - discriminate.
  - repeat split.
  - vm_compute. reflexivity.
  - repeat split.
Defined.

(** X11: When the store finds no document for the id, an update or delete request
    is answered 404 "Document not found"; the before-hook has run, with its
    effects, and the after-hook is not invoked. *)
Theorem not_found {W Data Doc} (model : accessor W Data Doc)
    (opts : config W Data Doc) (req : request Data) (s : state W Data Doc)
    (id : string) :
  params_id req = Some id -> id <> "" ->
  (forall data w1 l1 w2,
      hook_ran (beforeUpdate (opts_hooks opts)) CallBeforeUpdate
               req (body req) (body req) (world s) data w1 l1 ->
      findByIdAndUpdate model id data {| new := true; runValidators := true |} w1
      = (Returned None, w2) ->
      update_handler model opts req s
      = (Some {| status := 404; json := ErrorBody true "Document not found" |},
         {| world := w2;
            log := log s ++ l1
                   ++ [CallFindByIdAndUpdate id data
                         {| new := true; runValidators := true |}] |}))
  /\ (forall w1 l1 w2,
      hook_ran (beforeDelete (opts_hooks opts)) CallBeforeDelete
               req id tt (world s) tt w1 l1 ->
      findByIdAndDelete model id w1 = (Returned None, w2) ->
      delete_handler model opts req s
      = (Some {| status := 404; json := ErrorBody true "Document not found" |},
         {| world := w2; log := log s ++ l1 ++ [CallFindByIdAndDelete id] |})).
Proof.
  intros Hid Hne. split.
  - intros data w1 l1 w2 Hbefore Hupd.
    unfold update_handler, hook_ran in *. rewrite Hid, (truthy_id _ Hne).
    destruct (beforeUpdate (opts_hooks opts)) as [before|];
      [destruct Hbefore as [Hb ->] | destruct Hbefore as (-> & -> & ->)];
      run_handler; rewrite ?Hb; simpl; rewrite Hupd; simpl; tidy_log.
  - intros w1 l1 w2 Hbefore Hdel.
    unfold delete_handler, hook_ran in *. rewrite Hid, (truthy_id _ Hne).
    destruct (beforeDelete (opts_hooks opts)) as [before|];
      [destruct Hbefore as [Hb ->] | destruct Hbefore as (_ & -> & ->)];
      run_handler; rewrite ?Hb; simpl; rewrite Hdel; simpl; tidy_log.
Qed.

Lemma not_found_witness :
  let opts := Memory.opts_of
    {| o_pagination := None; o_sort := None; o_filter := None;
       o_projection := None; o_populate := None; o_validateBody := None;
       o_hooks := Some
         {| beforeCreate := None; afterCreate := None; beforeUpdate := None;
            afterUpdate := Some (Memory.failing "not reached");
            beforeDelete := None;
            afterDelete := Some (Memory.failing "not reached") |} |} in
  update_handler Memory.model opts (Memory.req [] (Some "z") "y") (Memory.start ["a"])
  = (Some {| status := 404; json := ErrorBody true "Document not found" |},
     {| world := ["a"];
        log := [CallFindByIdAndUpdate "z" "y"
                  {| new := true; runValidators := true |}] |})
  /\ delete_handler Memory.model opts (Memory.req [] (Some "z") "") (Memory.start ["a"])
     = (Some {| status := 404; json := ErrorBody true "Document not found" |},
        {| world := ["a"]; log := [CallFindByIdAndDelete "z"] |}).
Proof.
  intros opts. split.
  - apply (proj1 (not_found Memory.model opts (Memory.req [] (Some "z") "y")
                    (Memory.start ["a"]) "z" eq_refl ltac:(discriminate))
             "y" ["a"] [] ["a"]).
    + repeat split.
    + vm_compute. reflexivity.
  - apply (proj2 (not_found Memory.model opts (Memory.req [] (Some "z") "")
                    (Memory.start ["a"]) "z" eq_refl ltac:(discriminate))
             ["a"] [] ["a"]).
    + repeat split.
    + vm_compute. reflexivity.
Defined.

(** X12: A validator that throws, or a before-create or before-update hook
    that throws, leaves the log ending with the failing call, so the store
    operation is not invoked; when the thrown value is not [null] or
    [undefined] the request is answered 400 with the thrown message or the
    handler's fallback, and otherwise no response is sent. *)
Theorem failure_before_persistence {W Data Doc} (model : accessor W Data Doc)
    (opts : config W Data Doc) (req : request Data) (s : state W Data Doc) :
  (forall validate sync e w1,
      validateBody opts = Some validate ->
      validate (body req) (world s) = (Thrown sync e, w1) ->
      (create_handler model opts req s).2
      = {| world := w1; log := log s ++ [CallValidateBody (body req)] |}
      /\ (forall message, e = Exception message ->
            (create_handler model opts req s).1
            = Some {| status := 400;
                      json := ErrorBody true
                        (message_of message "Failed to create document") |})
      /\ (e = Nullish -> (create_handler model opts req s).1 = None))
  /\ (forall w1 l1 hook sync e w2,
      validation_passed (validateBody opts) (body req) (world s) w1 l1 ->
      beforeCreate (opts_hooks opts) = Some hook ->
      hook req (body req) w1 = (Thrown sync e, w2) ->
      (create_handler model opts req s).2
      = {| world := w2; log := log s ++ l1 ++ [CallBeforeCreate (body req)] |}
      /\ (forall message, e = Exception message ->
            (create_handler model opts req s).1
            = Some {| status := 400;
                      json := ErrorBody true
                        (message_of message "Failed to create document") |})
      /\ (e = Nullish -> (create_handler model opts req s).1 = None))
  /\ (forall id hook sync e w1,
      params_id req = Some id -> id <> "" ->
      beforeUpdate (opts_hooks opts) = Some hook ->
      hook req (body req) (world s) = (Thrown sync e, w1) ->
      (update_handler model opts req s).2
      = {| world := w1; log := log s ++ [CallBeforeUpdate (body req)] |}
      /\ (forall message, e = Exception message ->
            (update_handler model opts req s).1
            = Some {| status := 400;
                      json := ErrorBody true
                        (message_of message "Failed to update document") |})
      /\ (e = Nullish -> (update_handler model opts req s).1 = None)).
Proof.
  split; [| split].
  - intros validate sync e w1 Hv Hthrow.
    unfold create_handler. rewrite Hv. run_handler. rewrite Hthrow. simpl.
    split; [reflexivity | split];
      [intros message ->; by rewrite message_or_exception | by intros ->].
  - intros w1 l1 hook sync e w2 Hval Hh Hthrow.
    unfold create_handler, validation_passed in *. rewrite Hh.
    destruct (validateBody opts) as [validate|];
      [destruct Hval as (r & Hr & Htruthy & ->) | destruct Hval as [-> ->]];
      run_handler; rewrite ?Hr; simpl; rewrite ?Htruthy; simpl;
      rewrite Hthrow; simpl;
      (split; [tidy_log | split];
        [intros message ->; by rewrite message_or_exception | by intros ->]).
  - intros id hook sync e w1 Hid Hne Hh Hthrow.
    unfold update_handler. rewrite Hid, (truthy_id _ Hne), Hh.
    run_handler. rewrite Hthrow. simpl.
    split; [reflexivity | split];
      [intros message ->; by rewrite message_or_exception | by intros ->].
Qed.

Lemma failure_before_persistence_witness :
  let opts := Memory.opts_of
    {| o_pagination := None; o_sort := None; o_filter := None;
       o_projection := None; o_populate := None; o_validateBody := None;
       o_hooks := Some
         {| beforeCreate := Some (Memory.failing "no quota");
            afterCreate := None;
            beforeUpdate := Some (Memory.failing "");
            afterUpdate := None; beforeDelete := None; afterDelete := None |} |} in
  create_handler Memory.model opts (Memory.req [] None "c") (Memory.start ["a"])
  = (Some {| status := 400; json := ErrorBody true "no quota" |},
     {| world := ["a"]; log := [CallBeforeCreate "c"] |})
  /\ update_handler Memory.model opts (Memory.req [] (Some "a") "z") (Memory.start ["a"])
     = (Some {| status := 400; json := ErrorBody true "Failed to update document" |},
        {| world := ["a"]; log := [CallBeforeUpdate "z"] |}).
Proof.
  intros opts.
  destruct (failure_before_persistence Memory.model opts
              (Memory.req [] None "c") (Memory.start ["a"])) as (_ & Hcreate & _).
  destruct (failure_before_persistence Memory.model opts
              (Memory.req [] (Some "a") "z") (Memory.start ["a"])) as (_ & _ & Hupdate).
  destruct (Hcreate ["a"] [] (Memory.failing "no quota") true
              (Exception (Some "no quota")) ["a"]
              ltac:(repeat split) eq_refl eq_refl) as (Hs1 & Hr1 & _).
  destruct (Hupdate "a" (Memory.failing "") true (Exception (Some "")) ["a"]
              eq_refl ltac:(discriminate) eq_refl eq_refl) as (Hs2 & Hr2 & _).
  split; apply injective_projections; simpl.
  - apply (Hr1 (Some "no quota") eq_refl).
  - apply Hs1.
  - apply (Hr2 (Some "") eq_refl).
  - apply Hs2.
Defined.

(** X13: A store operation that throws leaves the log ending with the store
    call, so the after-hook is not invoked; when the thrown value is not
    [null] or [undefined], create and update answer 400 and delete answers
    500, with the thrown message or the handler's fallback, and otherwise no
    response is sent. *)
Theorem store_failure {W Data Doc} (model : accessor W Data Doc)
    (opts : config W Data Doc) (req : request Data) (s : state W Data Doc) :
  (forall w1 l1 data w2 l2 sync e w3,
      validation_passed (validateBody opts) (body req) (world s) w1 l1 ->
      hook_ran (beforeCreate (opts_hooks opts)) CallBeforeCreate
               req (body req) (body req) w1 data w2 l2 ->
      create model data w2 = (Thrown sync e, w3) ->
      (create_handler model opts req s).2
      = {| world := w3; log := log s ++ l1 ++ l2 ++ [CallCreate data] |}
      /\ (forall message, e = Exception message ->
            (create_handler model opts req s).1
            = Some {| status := 400;
                      json := ErrorBody true
                        (message_of message "Failed to create document") |})
      /\ (e = Nullish -> (create_handler model opts req s).1 = None))
  /\ (forall id data w1 l1 sync e w2,
      params_id req = Some id -> id <> "" ->
      hook_ran (beforeUpdate (opts_hooks opts)) CallBeforeUpdate
               req (body req) (body req) (world s) data w1 l1 ->
      findByIdAndUpdate model id data {| new := true; runValidators := true |} w1
      = (Thrown sync e, w2) ->
      (update_handler model opts req s).2
      = {| world := w2;
           log := log s ++ l1
                  ++ [CallFindByIdAndUpdate id data
                        {| new := true; runValidators := true |}] |}
      /\ (forall message, e = Exception message ->
            (update_handler model opts req s).1
            = Some {| status := 400;
                      json := ErrorBody true
                        (message_of message "Failed to update document") |})
      /\ (e = Nullish -> (update_handler model opts req s).1 = None))
  /\ (forall id w1 l1 sync e w2,
      params_id req = Some id -> id <> "" ->
      hook_ran (beforeDelete (opts_hooks opts)) CallBeforeDelete
               req id tt (world s) tt w1 l1 ->
      findByIdAndDelete model id w1 = (Thrown sync e, w2) ->
      (delete_handler model opts req s).2
      = {| world := w2; log := log s ++ l1 ++ [CallFindByIdAndDelete id] |}
      /\ (forall message, e = Exception message ->
            (delete_handler model opts req s).1
            = Some {| status := 500;
                      json := ErrorBody true
                        (message_of message "Failed to delete document") |})
      /\ (e = Nullish -> (delete_handler model opts req s).1 = None)).
Proof.
  split; [| split].
  - intros w1 l1 data w2 l2 sync e w3 Hval Hbefore Hcreate.
    unfold create_handler, validation_passed, hook_ran in *.
    destruct (validateBody opts) as [validate|];
      [destruct Hval as (r & Hr & Htruthy & ->) | destruct Hval as [-> ->]];
      (destruct (beforeCreate (opts_hooks opts)) as [before|];
        [destruct Hbefore as [Hb ->] | destruct Hbefore as (-> & -> & ->)]);
      run_handler;
      rewrite ?Hr; simpl; rewrite ?Htruthy; simpl;
      rewrite ?Hb; simpl; rewrite Hcreate; simpl;
      (split; [tidy_log | split];
        [intros message ->; by rewrite message_or_exception | by intros ->]).
  - intros id data w1 l1 sync e w2 Hid Hne Hbefore Hupd.
    unfold update_handler, hook_ran in *. rewrite Hid, (truthy_id _ Hne).
    destruct (beforeUpdate (opts_hooks opts)) as [before|];
      [destruct Hbefore as [Hb ->] | destruct Hbefore as (-> & -> & ->)];
      run_handler; rewrite ?Hb; simpl; rewrite Hupd; simpl;
      (split; [tidy_log | split];
        [intros message ->; by rewrite message_or_exception | by intros ->]).
  - intros id w1 l1 sync e w2 Hid Hne Hbefore Hdel.
    unfold delete_handler, hook_ran in *. rewrite Hid, (truthy_id _ Hne).
    destruct (beforeDelete (opts_hooks opts)) as [before|];
      [destruct Hbefore as [Hb ->] | destruct Hbefore as (_ & -> & ->)];
      run_handler; rewrite ?Hb; simpl; rewrite Hdel; simpl;
      (split; [tidy_log | split];
        [intros message ->; by rewrite message_or_exception | by intros ->]).
Qed.

Lemma store_failure_witness :
  let opts := Memory.opts_of no_options in
  create_handler Memory.model_writes_fail opts (Memory.req [] None "c") (Memory.start ["a"])
  = (Some {| status := 400; json := ErrorBody true "duplicate key" |},
     {| world := ["a"]; log := [CallCreate "c"] |})
  /\ delete_handler Memory.model_writes_fail opts (Memory.req [] (Some "a") "")
       (Memory.start ["a"])
     = (Some {| status := 500; json := ErrorBody true "Failed to delete document" |},
        {| world := ["a"]; log := [CallFindByIdAndDelete "a"] |})
  /\ delete_handler Memory.model_rejects_nullish opts (Memory.req [] (Some "a") "")
       (Memory.start ["a"])
     = (None, {| world := ["a"]; log := [CallFindByIdAndDelete "a"] |}).
Proof.
  intros opts.
  destruct (store_failure Memory.model_writes_fail opts
              (Memory.req [] None "c") (Memory.start ["a"])) as (Hcreate & _ & _).
  destruct (store_failure Memory.model_writes_fail opts
              (Memory.req [] (Some "a") "") (Memory.start ["a"])) as (_ & _ & Hdelete).
  destruct (store_failure Memory.model_rejects_nullish opts
              (Memory.req [] (Some "a") "") (Memory.start ["a"])) as (_ & _ & Hnull).
  destruct (Hcreate ["a"] [] "c" ["a"] [] false (Exception (Some "duplicate key")) ["a"]
              ltac:(repeat split) ltac:(repeat split) eq_refl) as (Hs1 & Hr1 & _).
  destruct (Hdelete "a" ["a"] [] false (Exception None) ["a"]
              eq_refl ltac:(discriminate) ltac:(repeat split) eq_refl)
    as (Hs2 & Hr2 & _).
  destruct (Hnull "a" ["a"] [] false Nullish ["a"]
              eq_refl ltac:(discriminate) ltac:(repeat split) eq_refl)
    as (Hs3 & _ & Hr3).
  split; [| split]; apply injective_projections; simpl.
  - apply (Hr1 (Some "duplicate key") eq_refl).
  - apply Hs1.
  - apply (Hr2 None eq_refl).
  - apply Hs2.
  - apply (Hr3 eq_refl).
  - apply Hs3.
Defined.

(** ** The write handlers on every path *)

Ltac all_paths := repeat (simpl; case_match; simplify_eq).

Ltac close_path :=
  simpl;
  first [ exists []; split; [symmetry; apply app_nil_r |]
        | eexists; split; [rewrite <- ?app_assoc; simpl; reflexivity |] ].

Lemma message_of_nonempty (message : option string) (fallback : string) :
  fallback <> "" -> message_of message fallback <> "".
Proof.
  intros Hf. unfold message_of. destruct message as [m|]; simpl; [|done].
  by destruct (decide (m = "")).
Qed.

(** X14: On every path a write request makes its calls in the order validator,
    before-hook, store operation, after-hook, stopping at the first that
    fails or rejects: the calls made are a prefix of the full sequence.  A
    success answer (201 for create, 200 for update and delete) is sent only
    after the full sequence has run. *)
Theorem write_call_order {W Data Doc} (model : accessor W Data Doc)
    (opts : config W Data Doc) (req : request Data) (s : state W Data Doc) :
  (exists added,
      log (create_handler model opts req s).2 = (log s ++ added)%list
      /\ (kind_of <$> added) `prefix_of` create_sequence opts
      /\ (status <$> (create_handler model opts req s).1 = Some 201 ->
          kind_of <$> added = create_sequence opts))
  /\ (exists added,
      log (update_handler model opts req s).2 = (log s ++ added)%list
      /\ (kind_of <$> added) `prefix_of` update_sequence opts
      /\ (status <$> (update_handler model opts req s).1 = Some 200 ->
          kind_of <$> added = update_sequence opts))
  /\ (exists added,
      log (delete_handler model opts req s).2 = (log s ++ added)%list
      /\ (kind_of <$> added) `prefix_of` delete_sequence opts
      /\ (status <$> (delete_handler model opts req s).1 = Some 200 ->
          kind_of <$> added = delete_sequence opts)).
Proof.
  split; [| split].
  - unfold create_handler, create_sequence.
    destruct (validateBody opts) as [validate|];
      destruct (beforeCreate (opts_hooks opts)) as [before|];
      destruct (afterCreate (opts_hooks opts)) as [after|];
      run_handler; all_paths; close_path;
      (split; [by eexists | intros Hst; simpl in Hst; first [discriminate Hst | reflexivity]]).
  - unfold update_handler, update_sequence.
    destruct (beforeUpdate (opts_hooks opts)) as [before|];
      destruct (afterUpdate (opts_hooks opts)) as [after|];
      run_handler; all_paths; close_path;
      (split; [by eexists | intros Hst; simpl in Hst; first [discriminate Hst | reflexivity]]).
  - unfold delete_handler, delete_sequence.
    destruct (beforeDelete (opts_hooks opts)) as [before|];
      destruct (afterDelete (opts_hooks opts)) as [after|];
      run_handler; all_paths; close_path;
      (split; [by eexists | intros Hst; simpl in Hst; first [discriminate Hst | reflexivity]]).
Qed.

Lemma write_call_order_witness :
  let opts := Memory.opts_of
    {| o_pagination := None; o_sort := None; o_filter := None;
       o_projection := None; o_populate := None;
       o_validateBody := Some (fun data w => (Returned (JS.VBool true), w));
       o_hooks := None |} in
  exists added,
    log (create_handler Memory.model opts (Memory.req [] None "c") (Memory.start [])).2
    = added
    /\ kind_of <$> added = [KValidateBody; KCreate].
Proof.
  intros opts.
  destruct (write_call_order Memory.model opts (Memory.req [] None "c") (Memory.start []))
    as ((added & Hlog & _ & Hfull) & _ & _).
  exists added. split; [exact Hlog|]. apply Hfull. reflexivity.
Defined.

(** X15: The validator is never invoked by an update or a delete request, even
    when one is configured: a partial update is not checked by
    [validateBody]. *)
Theorem update_delete_skip_validation {W Data Doc} (model : accessor W Data Doc)
    (opts : config W Data Doc) (req : request Data) (s : state W Data Doc)
    (data : Data) :
  (CallValidateBody data ∈ log (update_handler model opts req s).2 ->
   CallValidateBody data ∈ log s)
  /\ (CallValidateBody data ∈ log (delete_handler model opts req s).2 ->
      CallValidateBody data ∈ log s).
Proof.
  split.
  - unfold update_handler.
    destruct (beforeUpdate (opts_hooks opts)) as [before|];
      destruct (afterUpdate (opts_hooks opts)) as [after|];
      run_handler; all_paths; simpl; intros Hin;
      repeat (apply elem_of_app in Hin as [Hin | Hin%list_elem_of_singleton];
              [| discriminate Hin]);
      exact Hin.
  - unfold delete_handler.
    destruct (beforeDelete (opts_hooks opts)) as [before|];
      destruct (afterDelete (opts_hooks opts)) as [after|];
      run_handler; all_paths; simpl; intros Hin;
      repeat (apply elem_of_app in Hin as [Hin | Hin%list_elem_of_singleton];
              [| discriminate Hin]);
      exact Hin.
Qed.

Lemma update_delete_skip_validation_witness :
  let opts := Memory.opts_of
    {| o_pagination := None; o_sort := None; o_filter := None;
       o_projection := None; o_populate := None;
       o_validateBody := Some (fun data w => (Returned (JS.VBool false), w));
       o_hooks := None |} in
  let s : state Memory.store string string :=
    {| world := ["a"]; log := [CallValidateBody "earlier"] |} in
  log (update_handler Memory.model opts (Memory.req [] (Some "a") "z") s).2
  = [CallValidateBody "earlier";
     CallFindByIdAndUpdate "a" "z" {| new := true; runValidators := true |}]
  /\ CallValidateBody "earlier" ∈ log s.
Proof.
  intros opts s. split; [reflexivity|].
  apply (proj1 (update_delete_skip_validation Memory.model opts
                  (Memory.req [] (Some "a") "z") s "earlier")).
  change (CallValidateBody (Doc := string) "earlier"
            ∈ [CallValidateBody "earlier";
               CallFindByIdAndUpdate "a" "z" {| new := true; runValidators := true |}]).
  constructor.
Defined.

(** ** The read handlers on every path *)

(** A list request whose sort cannot be resolved calls nothing. *)
Lemma list_handler_sort_throws {W Data Doc} (model : accessor W Data Doc)
    (opts : config W Data Doc) (race : bool) (req : request Data)
    (s : state W Data Doc) sync e :
  applySort opts (query req) = Thrown sync e ->
  list_handler model opts race req s
  = (catch_response "Failed to fetch documents" 500 e, s).
Proof.
  intros Hsort. unfold list_handler. rewrite Hsort. reflexivity.
Qed.

(** The state a list request leaves, on each of its paths. *)
Lemma list_handler_state {W Data Doc} (model : accessor W Data Doc)
    (opts : config W Data Doc) (race : bool) (req : request Data)
    (s : state W Data Doc) :
  (list_handler model opts race req s).2 = s
  \/ exists sort,
      applySort opts (query req) = Returned sort
      /\ let read := exec_find model (list_query opts (query req) sort) (world s) in
         (list_handler model opts race req s).2
         = {| world := read.2;
              log := log s ++ [CallExec (list_query opts (query req) sort)] |}
         \/ (list_handler model opts race req s).2
            = {| world := (countDocuments model (buildFilter opts (query req)) read.2).2;
                 log := log s ++ [CallExec (list_query opts (query req) sort);
                                  CallCountDocuments (buildFilter opts (query req))] |}.
Proof.
  destruct (applySort opts (query req)) as [sort|sync e] eqn:Hsort.
  - right. exists sort. split; [reflexivity|]. simpl.
    destruct (exec_find model (list_query opts (query req) sort) (world s))
      as [ra w1] eqn:Hexec.
    destruct (countDocuments model (buildFilter opts (query req)) w1)
      as [rb w2] eqn:Hcount.
    destruct ra as [x|[|] ea].
    + right. simpl. rewrite Hcount.
      by destruct (list_handler_run model opts race req s sort _ w1 rb w2
                     Hsort Hexec ltac:(discriminate) Hcount) as [-> _].
    + left. by rewrite (list_handler_read_throws model opts race req s sort ea w1).
    + right. simpl. rewrite Hcount.
      by destruct (list_handler_run model opts race req s sort _ w1 rb w2
                     Hsort Hexec ltac:(discriminate) Hcount) as [-> _].
  - left. by rewrite (list_handler_sort_throws model opts race req s sync e).
Qed.

(** X16: A list or get-one request only reads: every call it adds to the log is a
    read or a count, and when the accessor's reads leave the store as it is,
    so does the request. *)
Theorem read_handlers_only_read {W Data Doc} (model : accessor W Data Doc)
    (opts : config W Data Doc) (race : bool) (req : request Data)
    (s : state W Data Doc) :
  (forall c, c ∈ log (list_handler model opts race req s).2 ->
             c ∈ log s \/ is_read c = true)
  /\ (forall c, c ∈ log (get_one_handler model opts req s).2 ->
                c ∈ log s \/ is_read c = true)
  /\ ((forall q w, (exec_find model q w).2 = w) ->
      (forall f w, (countDocuments model f w).2 = w) ->
      world (list_handler model opts race req s).2 = world s)
  /\ ((forall q w, (exec_findById model q w).2 = w) ->
      world (get_one_handler model opts req s).2 = world s).
Proof.
  split; [| split; [| split]].
  - intros c.
    destruct (list_handler_state model opts race req s)
      as [-> | (sort & _ & [-> | ->])]; simpl; [by left | |].
    + rewrite elem_of_app, list_elem_of_singleton. intros [Hin | ->]; auto.
    + rewrite elem_of_app, elem_of_cons, list_elem_of_singleton.
      intros [Hin | [-> | ->]]; auto.
  - intros c. unfold get_one_handler. run_handler. all_paths; simpl; intros Hin;
      try (apply elem_of_app in Hin as [Hin | ->%list_elem_of_singleton]); auto.
  - intros Hread Hcnt.
    destruct (list_handler_state model opts race req s)
      as [-> | (sort & _ & [-> | ->])]; simpl; [reflexivity | |].
    + apply Hread.
    + rewrite Hcnt. apply Hread.
  - intros Hread. unfold get_one_handler. run_handler.
    all_paths; try reflexivity;
      match goal with
      | H : exec_findById model ?q ?w = (_, ?w') |- _ =>
          pose proof (Hread q w) as Hw; rewrite H in Hw; simpl in Hw; by subst
      end.
Qed.

Lemma read_handlers_only_read_witness :
  world (list_handler Memory.model (Memory.opts_of no_options) true
           (Memory.req [] None "") (Memory.start ["a"; "b"])).2 = ["a"; "b"]
  /\ world (get_one_handler Memory.model (Memory.opts_of no_options)
              (Memory.req [] (Some "a") "") (Memory.start ["a"; "b"])).2 = ["a"; "b"].
Proof.
  destruct (read_handlers_only_read Memory.model (Memory.opts_of no_options) true
              (Memory.req [] None "") (Memory.start ["a"; "b"])) as (_ & _ & Hlist & _).
  destruct (read_handlers_only_read Memory.model (Memory.opts_of no_options) true
              (Memory.req [] (Some "a") "") (Memory.start ["a"; "b"])) as (_ & _ & _ & Hone).
  split.
  - apply Hlist; reflexivity.
  - apply Hone; reflexivity.
Defined.

(** ** The answers of the five handlers *)

Lemma message_or_nonempty (e : thrown) (fallback m : string) :
  fallback <> "" -> message_or e fallback = Some m -> m <> "".
Proof.
  intros Hf. unfold message_or. destruct e as [|[msg|]]; simpl; [done | |].
  - destruct (String.eqb_spec msg ""); simpl; congruence.
  - congruence.
Qed.

Lemma message_or_nullish (e : thrown) (fallback : string) :
  message_or e fallback = None -> e = Nullish.
Proof. by destruct e. Qed.

Lemma applySort_throws {W Data Doc} (opts : config W Data Doc)
    (query : gmap string qvalue) sync e :
  applySort opts query = Thrown sync e -> e <> Nullish.
Proof.
  unfold applySort. repeat case_match; intros [= <- <-]; discriminate.
Qed.

(** What a list request answers, on each of its paths. *)
Lemma list_handler_answer {W Data Doc} (model : accessor W Data Doc)
    (opts : config W Data Doc) (race : bool) (req : request Data)
    (s : state W Data Doc) :
  (exists e,
      (list_handler model opts race req s).1
      = catch_response "Failed to fetch documents" 500 e
      /\ ((exists sync, applySort opts (query req) = Thrown sync e)
          \/ (exists q w sync, (exec_find model q w).1 = Thrown sync e)
          \/ (exists f w sync, (countDocuments model f w).1 = Thrown sync e)))
  \/ (exists data count,
      (list_handler model opts race req s).1
      = Some {| status := 200;
                json := ListBody data
                  (if pagination_enabled opts
                   then Some {| total := count;
                                page := resolve_page (query req);
                                pr_limit := resolve_limit opts (query req);
                                totalPages :=
                                  JS.ceil_div count (resolve_limit opts (query req));
                                hasNextPage :=
                                  resolve_page (query req)
                                  <? JS.ceil_div count
                                       (resolve_limit opts (query req)) |}
                   else None) |}).
Proof.
  destruct (applySort opts (query req)) as [sort|sync e] eqn:Hsort.
  - destruct (exec_find model (list_query opts (query req) sort) (world s))
      as [ra w1] eqn:Hexec.
    destruct (countDocuments model (buildFilter opts (query req)) w1)
      as [rb w2] eqn:Hcount.
    assert (forall sync e, ra = Thrown sync e ->
              exists q w sync, (exec_find model q w).1 = Thrown sync e) as Hread.
    { intros sync e ->. eexists _, _, sync. by rewrite Hexec. }
    assert (forall sync e, rb = Thrown sync e ->
              exists f w sync, (countDocuments model f w).1 = Thrown sync e) as Hcnt.
    { intros sync e ->. eexists _, _, sync. by rewrite Hcount. }
    destruct ra as [data|[|] ea].
    + destruct (list_handler_run model opts race req s sort _ w1 rb w2
                  Hsort Hexec ltac:(discriminate) Hcount)
        as (_ & H0 & _ & H2 & _ & H4).
      destruct rb as [count|[|] eb].
      * right. exists data, count. apply (H4 data eq_refl count eq_refl).
      * left. exists eb. split; [apply (H0 eb eq_refl) | eauto].
      * left. exists eb. split; [apply (H2 data eq_refl eb eq_refl) | eauto].
    + left. exists ea. split; [| eauto].
      by rewrite (list_handler_read_throws model opts race req s sort ea w1).
    + destruct (list_handler_run model opts race req s sort _ w1 rb w2
                  Hsort Hexec ltac:(discriminate) Hcount)
        as (_ & H0 & H1 & _ & H3 & _).
      destruct rb as [count|[|] eb].
      * left. exists ea. split; [apply (H1 ea eq_refl count eq_refl) | eauto].
      * left. exists eb. split; [apply (H0 eb eq_refl) | eauto].
      * left. exists (if race then ea else eb).
        split; [apply (H3 ea eq_refl eb eq_refl)|]. destruct race; eauto.
  - left. exists e. split; [| eauto].
    by rewrite (list_handler_sort_throws model opts race req s sync e).
Qed.

Ltac envelope code :=
  split; [reflexivity | eexists; split; [reflexivity |]];
  first [ discriminate
        | eapply message_or_nonempty; [| eassumption]; discriminate ].

(** A path on which nothing is sent has caught [null] or [undefined], which
    the call that threw it never throws. *)
Ltac no_nullish :=
  exfalso;
  match goal with
  | H : message_or ?e _ = None |- _ => apply message_or_nullish in H; subst
  end;
  match goal with
  | H : ?f ?w = (Thrown ?sync Nullish, _) |- _ =>
      assert (never_nullish f) as Hnever by eauto;
      apply (Hnever w sync); by rewrite H
  end.

(** X17: Every response a handler sends is either its success status and
    body, or the error envelope [{error: true, message}] whose message is not
    empty and whose status is one of those of its route: 500 for list; 400,
    404 or 500 for get-one and delete; 400 for create; 400 or 404 for update.
    A list answer carries [pagination] exactly when pagination is enabled.
    When neither the accessor nor a callback throws [null] or [undefined],
    every handler sends a response. *)
Theorem response_table {W Data Doc} (model : accessor W Data Doc)
    (opts : config W Data Doc) (race : bool) (req : request Data)
    (s : state W Data Doc) :
  (forall r, (list_handler model opts race req s).1 = Some r ->
     (status r = 200
      /\ exists data p, json r = ListBody data p
                        /\ (is_Some p <-> pagination_enabled opts = true))
     \/ error_envelope r 500)
  /\ (forall r, (get_one_handler model opts req s).1 = Some r ->
      (status r = 200 /\ exists doc, json r = DocBody doc)
      \/ error_envelope r 400 \/ error_envelope r 404 \/ error_envelope r 500)
  /\ (forall r, (create_handler model opts req s).1 = Some r ->
      (status r = 201 /\ exists doc, json r = DocBody doc)
      \/ error_envelope r 400)
  /\ (forall r, (update_handler model opts req s).1 = Some r ->
      (status r = 200 /\ exists doc, json r = DocBody doc)
      \/ error_envelope r 400 \/ error_envelope r 404)
  /\ (forall r, (delete_handler model opts req s).1 = Some r ->
      (status r = 200
       /\ exists id, params_id req = Some id
                     /\ json r = DeletedBody true "Document deleted successfully" id)
      \/ error_envelope r 400 \/ error_envelope r 404 \/ error_envelope r 500)
  /\ (accessor_never_nullish model -> callbacks_never_nullish opts ->
      is_Some (list_handler model opts race req s).1
      /\ is_Some (get_one_handler model opts req s).1
      /\ is_Some (create_handler model opts req s).1
      /\ is_Some (update_handler model opts req s).1
      /\ is_Some (delete_handler model opts req s).1).
Proof.
  split; [| split; [| split; [| split; [| split]]]].
  - intros r.
    destruct (list_handler_answer model opts race req s)
      as [(e & -> & _) | (data & count & ->)].
    + unfold catch_response. destruct (message_or e _) as [m|] eqn:Hm; [|done].
      intros [= <-]. right. envelope 500.
    + intros [= <-]. left. split; [reflexivity|].
      eexists _, _. split; [reflexivity|].
      destruct (pagination_enabled opts); split; intros H;
        try done; try (by eexists); by destruct H.
  - intros r. unfold get_one_handler. run_handler.
    all_paths; simpl; intros Hr; simplify_eq.
    all: first [ left; split; [reflexivity | by eexists]
               | right; left; by envelope 400
               | right; right; left; by envelope 404
               | right; right; right; by envelope 500 ].
  - intros r. unfold create_handler.
    destruct (validateBody opts) as [validate|];
      destruct (beforeCreate (opts_hooks opts)) as [before|];
      destruct (afterCreate (opts_hooks opts)) as [after|];
      run_handler; all_paths; simpl; intros Hr; simplify_eq.
    all: first [ left; split; [reflexivity | by eexists]
               | right; by envelope 400 ].
  - intros r. unfold update_handler.
    destruct (beforeUpdate (opts_hooks opts)) as [before|];
      destruct (afterUpdate (opts_hooks opts)) as [after|];
      run_handler; all_paths; simpl; intros Hr; simplify_eq.
    all: first [ left; split; [reflexivity | by eexists]
               | right; left; by envelope 400
               | right; right; by envelope 404 ].
  - intros r. unfold delete_handler.
    destruct (params_id req) as [id|];
      destruct (beforeDelete (opts_hooks opts)) as [before|];
      destruct (afterDelete (opts_hooks opts)) as [after|];
      run_handler; all_paths; simpl; intros Hr; simplify_eq.
    all: first [ left; split; [reflexivity | eexists; split; reflexivity]
               | right; left; by envelope 400
               | right; right; left; by envelope 404
               | right; right; right; by envelope 500 ].
  - intros (Hfind & Hone & Hcount & Hcreate & Hupdate & Hdelete)
           (Hvalidate & Hbc & Hac & Hbu & Hau & Hbd & Had).
    unfold optional_never_nullish in *.
    split; [| split; [| split; [| split]]].
    + destruct (list_handler_answer model opts race req s)
        as [(e & -> & He) | (data & count & ->)]; [| by eexists].
      unfold catch_response. destruct (message_or e _) as [m|] eqn:Hm; [by eexists|].
      apply message_or_nullish in Hm. subst e. exfalso.
      destruct He as [[sync He] | [(q & w & sync & He) | (f & w & sync & He)]].
      * by apply applySort_throws in He.
      * by apply (Hfind q w sync).
      * by apply (Hcount f w sync).
    + unfold get_one_handler. run_handler.
      all_paths; simpl; first [by eexists | no_nullish].
    + unfold create_handler.
      destruct (validateBody opts) as [validate|] eqn:Hv;
        destruct (beforeCreate (opts_hooks opts)) as [before|];
        destruct (afterCreate (opts_hooks opts)) as [after|];
        run_handler; all_paths; simpl; first [by eexists | no_nullish].
    + unfold update_handler.
      destruct (beforeUpdate (opts_hooks opts)) as [before|];
        destruct (afterUpdate (opts_hooks opts)) as [after|];
        run_handler; all_paths; simpl; first [by eexists | no_nullish].
    + unfold delete_handler.
      destruct (params_id req) as [id|];
        destruct (beforeDelete (opts_hooks opts)) as [before|];
        destruct (afterDelete (opts_hooks opts)) as [after|];
        run_handler; all_paths; simpl; first [by eexists | no_nullish].
Qed.

Lemma response_table_witness :
  let opts := Memory.opts_of no_options in
  let request := Memory.req [] (Some "zz") "z" in
  let s := Memory.start ["a"] in
  error_envelope {| status := 404; json := ErrorBody (Doc := string) true "Document not found" |} 404
  /\ is_Some (list_handler Memory.model opts true request s).1
  /\ is_Some (get_one_handler Memory.model opts request s).1
  /\ is_Some (create_handler Memory.model opts request s).1
  /\ is_Some (update_handler Memory.model opts request s).1
  /\ is_Some (delete_handler Memory.model opts request s).1.
Proof.
  intros opts request s.
  destruct (response_table Memory.model opts true request s)
    as (_ & _ & _ & Hupdate & _ & Hsent).
  split.
  - destruct (Hupdate {| status := 404; json := ErrorBody true "Document not found" |}
                eq_refl) as [[Hst _] | [[Hst _] | Henv]];
      [discriminate Hst | discriminate Hst | exact Henv].
  - apply Hsent.
    + repeat split; intros; intros ? ?; simpl; try case_match; discriminate.
    + repeat split; intros; intros ? ?; simpl in *; discriminate.
Defined.

(** ** More on sort and filter resolution *)

Lemma strip_minus_bare (s : string) : bare_field s (JS.strip_minus s).
Proof.
  destruct s as [|c rest]; [right; split; [done | discriminate]|].
  destruct (Ascii.ascii_dec c "-") as [-> | Hc]; [by left|].
  right. split.
  - unfold JS.strip_minus.
    destruct c as [[] [] [] [] [] [] [] []]; try reflexivity. by destruct Hc.
  - intros r [= Heq _]. done.
Qed.

(** X18: When a sort is resolved it is the configured default or the
    requested value, never anything else; and with a non-empty allowed set it
    is the default or a requested value whose bare field is allowed, so a
    field outside the set never reaches the accessor through the request.  A
    sort is resolved whenever the request's [sort] is absent or a string;
    otherwise [applySort] throws and nothing is resolved. *)
Theorem applySort_never_disallowed {W Data Doc} (opts : config W Data Doc)
    (query : gmap string qvalue) :
  (forall sort, applySort opts query = Returned sort ->
     (sort = sort_default opts \/ query !! "sort" = Some (QStr sort))
     /\ (sort_allowed opts <> [] ->
         sort = sort_default opts
         \/ exists bare, bare_field sort bare /\ bare ∈ sort_allowed opts))
  /\ (string_sort query -> exists sort, applySort opts query = Returned sort)
  /\ (forall sync e, applySort opts query = Thrown sync e ->
       exists l, query !! "sort" = Some (QArr l)).
Proof.
  unfold applySort, string_sort.
  destruct (query !! "sort") as [[requested|l]|];
    [| split; [done | split; [intros H; by destruct (H l) | by eexists]]
     | split; [intros ? [= <-]; auto | split; [by eexists | done]]].
  destruct (String.eqb requested ""); simpl;
    [split; [intros ? [= <-]; auto | split; [by eexists | done]]|].
  destruct (0 <? length (sort_allowed opts))%nat eqn:Hlen; simpl.
  - destruct (JS.includes (sort_allowed opts) (JS.strip_minus requested)) eqn:Hin;
      simpl; [| split; [intros ? [= <-]; auto | split; [by eexists | done]]].
    split; [| split; [by eexists | done]].
    intros ? [= <-]. split; [auto|]. intros _. right.
    exists (JS.strip_minus requested).
    split; [apply strip_minus_bare | by apply includes_true].
  - split; [| split; [by eexists | done]].
    intros ? [= <-]. split; [auto|].
    intros Hne. apply length_pos_nonempty in Hne. congruence.
Qed.

Lemma applySort_never_disallowed_witness :
  let opts := Memory.opts_of
    {| o_pagination := None;
       o_sort := Some {| so_default := JS.VStr "name"; so_allowed := Some ["name"; "age"] |};
       o_filter := None; o_projection := None; o_populate := None;
       o_validateBody := None; o_hooks := None |} in
  let query : gmap string qvalue := {["sort" := QStr "--age"]} in
  applySort opts query = Returned "name"
  /\ ("name" = "name"
      \/ exists bare, bare_field "name" bare /\ bare ∈ ["name"; "age"]).
Proof.
  intros opts query. split; [reflexivity|].
  destruct (applySort_never_disallowed opts query) as (Hsort & _ & _).
  apply (Hsort "name" eq_refl). vm_compute. discriminate.
Defined.

Lemma buildFilter_disabled {W Data Doc} (opts : config W Data Doc)
    (query : gmap string qvalue) :
  filter_enabled opts = false -> buildFilter opts query = ∅.
Proof. intros H. unfold buildFilter. by rewrite H. Qed.

Lemma reserved_not_passes {W Data Doc} (opts : config W Data Doc) (key : string) :
  key ∈ reserved_keys -> ~ passes opts key.
Proof. intros Hin [Hno _]. done. Qed.

(** X19: The filter is a part of the query: every entry of the filter is an entry
    of the query with the same value, and [page], [limit] and [sort] are
    never among its keys, whatever the allowed set contains. *)
Theorem buildFilter_subset {W Data Doc} (opts : config W Data Doc)
    (query : gmap string qvalue) :
  buildFilter opts query ⊆ query
  /\ buildFilter opts query !! "page" = None
  /\ buildFilter opts query !! "limit" = None
  /\ buildFilter opts query !! "sort" = None.
Proof.
  destruct (filter_enabled opts) eqn:Hen.
  - assert (Hres : forall key, key ∈ reserved_keys ->
                               buildFilter opts query !! key = None).
    { intros key Hin. apply eq_None_not_Some. intros [v Hv].
      apply buildFilter_lookup in Hv as [_ Hp]; [|done].
      by apply (reserved_not_passes opts key). }
    split; [| repeat split; apply Hres; unfold reserved_keys; set_solver].
    apply map_subseteq_spec. intros key v Hv.
    by apply buildFilter_lookup in Hv as [Hq _].
  - rewrite (buildFilter_disabled _ _ Hen).
    split; [apply map_empty_subseteq | by rewrite !lookup_empty].
Qed.

(** X20: With filtering enabled and no allowed set, the filter is the query
    without its [page], [limit], [sort] and [__proto__] entries. *)
Theorem buildFilter_unrestricted {W Data Doc} (opts : config W Data Doc)
    (query : gmap string qvalue) :
  filter_enabled opts = true -> filter_allowed opts = [] ->
  buildFilter opts query
  = delete "__proto__" (delete "page" (delete "limit" (delete "sort" query))).
Proof.
  intros Hen Hnil. apply map_eq. intros key. apply option_eq. intros v.
  rewrite (buildFilter_lookup opts query key v Hen). unfold passes, reserved_keys.
  rewrite !lookup_delete_Some. rewrite !elem_of_cons, elem_of_nil.
  split.
  - intros (Hq & Hno & Hproto & _).
    repeat split; try done; intros Heq; apply Hno; subst; auto.
  - intros (Hproto & Hp & Hl & Hs & Hq). split; [done|].
    split; [| split; [done | by left]].
    intros [Heq | [Heq | [Heq | []]]]; subst; done.
Qed.

Lemma buildFilter_unrestricted_witness :
  buildFilter (Memory.opts_of no_options)
    (list_to_map [("page", QStr "2"); ("role", QStr "admin");
                  ("__proto__", QStr "x"); ("sort", QStr "-age");
                  ("age", QArr ["30"; "31"])])
  = list_to_map [("role", QStr "admin"); ("age", QArr ["30"; "31"])].
Proof.
  rewrite (buildFilter_unrestricted (Memory.opts_of no_options)
             (list_to_map [("page", QStr "2"); ("role", QStr "admin");
                           ("__proto__", QStr "x"); ("sort", QStr "-age");
                           ("age", QArr ["30"; "31"])])
             eq_refl eq_refl).
  vm_compute. reflexivity.
Defined.

(** X21: The filter depends only on the entries of the query other than [page],
    [limit] and [sort]; and filtering a filter again changes nothing. *)
Theorem buildFilter_frame {W Data Doc} (opts : config W Data Doc)
    (query query' : gmap string qvalue) :
  ((forall key, key ∉ reserved_keys -> query !! key = query' !! key) ->
   buildFilter opts query = buildFilter opts query')
  /\ buildFilter opts (buildFilter opts query) = buildFilter opts query.
Proof.
  destruct (filter_enabled opts) eqn:Hen.
  - split.
    + intros Hsame. apply map_eq. intros key. apply option_eq. intros v.
      rewrite !(buildFilter_lookup opts _ key v Hen).
      split; intros [Hq Hp]; (split; [| done]); destruct Hp as [Hno _];
        [rewrite <- Hsame | rewrite Hsame]; done.
    + apply map_eq. intros key. apply option_eq. intros v.
      rewrite !(buildFilter_lookup opts _ key v Hen). tauto.
  - rewrite !(buildFilter_disabled _ _ Hen). done.
Qed.

Lemma buildFilter_frame_witness :
  buildFilter (Memory.opts_of no_options)
    (list_to_map [("page", QStr "2"); ("role", QStr "admin")])
  = buildFilter (Memory.opts_of no_options)
      (list_to_map [("limit", QStr "5"); ("role", QStr "admin"); ("sort", QStr "x")]).
Proof.
  apply (proj1 (buildFilter_frame (Memory.opts_of no_options)
                  (list_to_map [("page", QStr "2"); ("role", QStr "admin")])
                  (list_to_map [("limit", QStr "5"); ("role", QStr "admin"); ("sort", QStr "x")]))).
  intros key Hkey. unfold reserved_keys in Hkey.
  rewrite !elem_of_cons, elem_of_nil in Hkey.
  destruct (decide (key = "role")) as [-> | Hrole]; [vm_compute; reflexivity|].
  assert (Hp : key <> "page") by tauto.
  assert (Hl : key <> "limit") by tauto.
  assert (Hs : key <> "sort") by tauto.
  simpl. rewrite !lookup_insert_ne by done. reflexivity.
Defined.

(** ** More on normalisation and registration *)

Lemma or_number (v : JS.value) (d : Z) :
  number_or_absent v -> d <> 0 -> JS.or v (JS.VNum d) = JS.VNum (number_or v d).
Proof.
  intros [-> | [n ->]] Hd; [reflexivity|].
  unfold JS.or. simpl. destruct (n =? 0)%Z; reflexivity.
Qed.

Lemma or_string (v : JS.value) (d : string) :
  string_or_absent v -> JS.or v (JS.VStr d) = JS.VStr (string_or v d).
Proof.
  intros [-> | [x ->]]; [reflexivity|].
  unfold JS.or. simpl. destruct (String.eqb x ""); reflexivity.
Qed.

(** X22: Options whose scalar fields are absent or of their declared types always
    normalise to a configuration the handlers can run with.  Each field is
    defaulted on its own: a supplied non-zero limit or non-empty default sort
    is kept, anything else becomes 20, 100 or '-createdAt'; the allowed
    sets, the projection and the populate list default to empty. *)
Theorem normalize_declared_types {W Data Doc} (o : options W Data Doc) :
  declared_types o ->
  exists opts,
    typed (normalize o) = Some opts
    /\ pagination_defaultLimit opts
       = number_or (opt_chain (o_pagination o) po_defaultLimit) 20
    /\ pagination_maxLimit opts
       = number_or (opt_chain (o_pagination o) po_maxLimit) 100
    /\ sort_default opts = string_or (opt_chain (o_sort o) so_default) "-createdAt"
    /\ sort_allowed opts = default [] (o_sort o ≫= so_allowed)
    /\ filter_allowed opts = default [] (o_filter o ≫= fo_allowed)
    /\ projection opts = default ∅ (o_projection o)
    /\ populate_fields opts = default [] (o_populate o)
    /\ validateBody opts = o_validateBody o
    /\ opts_hooks opts = default no_hooks (o_hooks o).
Proof.
  intros (Hd & Hm & Hs). unfold typed, normalize. simpl.
  rewrite (or_number _ 20 Hd), (or_number _ 100 Hm), (or_string _ _ Hs) by done.
  eexists. split; [reflexivity|]. simpl. repeat split.
Qed.

Lemma normalize_declared_types_witness :
  let o : options unit unit unit :=
    {| o_pagination := Some {| po_enabled := JS.VUndefined;
                               po_defaultLimit := JS.VUndefined;
                               po_maxLimit := JS.VNum 50 |};
       o_sort := None; o_filter := None; o_projection := None;
       o_populate := None; o_validateBody := None; o_hooks := None |} in
  exists opts,
    typed (normalize o) = Some opts
    /\ pagination_defaultLimit opts = 20
    /\ pagination_maxLimit opts = 50
    /\ sort_default opts = "-createdAt".
Proof.
  intros o.
  destruct (normalize_declared_types o) as (opts & Ht & Hd & Hm & Hs & _).
  - repeat split; first [by left | right; by eexists].
  - exists opts. auto.
Defined.

(** X23: The limits [autoCRUD] hands to its handlers are never zero and the
    default sort is never empty, whatever options it is given; so no request
    resolves to a limit of 0. *)
Theorem registered_limits_nonzero {W Data Doc} (model : accessor W Data Doc)
    (o : options W Data Doc) (opts : config W Data Doc) :
  typed (normalize o) = Some opts ->
  pagination_maxLimit opts <> 0
  /\ pagination_defaultLimit opts <> 0
  /\ sort_default opts <> ""
  /\ (forall query, resolve_limit opts query <> 0)
  /\ (forall race req s r p data,
        (list_handler model opts race req s).1 = Some r ->
        json r = ListBody data (Some p) ->
        pr_limit p <> 0 /\ is_ceiling (total p) (pr_limit p) (totalPages p)).
Proof.
  intros Ht.
  destruct (typed_normalize_nonzero o opts Ht) as (Hm & Hd & Hs).
  assert (Hl : forall query, resolve_limit opts query <> 0)
    by (intros query; by apply resolve_limit_nonzero).
  split; [done|]. split; [done|]. split; [done|]. split; [done|].
  intros race req s r p data.
  destruct (list_handler_answer model opts race req s)
    as [(e & -> & _) | (d & c & ->)].
  - unfold catch_response. destruct (message_or e _); [|done].
    intros [= <-]. discriminate.
  - intros [= <-]. simpl.
    destruct (pagination_enabled opts); [|discriminate].
    intros [= _ <-]. simpl.
    split; [apply Hl | apply ceil_div_is_ceiling, Hl].
Qed.

Lemma registered_limits_nonzero_witness :
  let o : options Memory.store string string :=
    {| o_pagination := Some {| po_enabled := JS.VUndefined;
                               po_defaultLimit := JS.VNum 0;
                               po_maxLimit := JS.VNum 0 |};
       o_sort := None; o_filter := None; o_projection := None;
       o_populate := None; o_validateBody := None; o_hooks := None |} in
  pagination_maxLimit (Memory.opts_of o) = 100
  /\ resolve_limit (Memory.opts_of o) {["limit" := QStr "0"]} = 20.
Proof.
  intros o.
  destruct (registered_limits_nonzero Memory.model o (Memory.opts_of o) eq_refl)
    as (_ & _ & _ & Hlimit & _).
  split; [reflexivity|].
  destruct (Z.eq_dec (resolve_limit (Memory.opts_of o) {["limit" := QStr "0"]}) 0)
    as [Hz | _]; [by destruct (Hlimit {["limit" := QStr "0"]}) | reflexivity].
Defined.

(** ** The route table *)

Lemma append_self_empty (s x : string) : s = s ++ x -> x = "".
Proof.
  induction s as [|c s IH]; simpl; [done|].
  intros [= Heq]. by apply IH.
Qed.

(** X24: [autoCRUD] registers exactly five routes, in this order: GET on the
    base route for list, GET on [base/:id] for get-one, POST on the base
    route for create, PUT on [base/:id] for update and DELETE on [base/:id]
    for delete; no two have the same verb and path.  The chain of each route
    is the chain configured for all routes followed by the chain configured
    for that route, each empty when not configured; with no middleware
    configured every chain is empty. *)
Theorem registrations_spec {H : Type} (baseRoute : string)
    (o : option (middleware_options H)) :
  (fun r => (reg_verb r, reg_path r, reg_endpoint r)) <$> registrations baseRoute o
  = [ (GET, baseRoute, ListRoute);
      (GET, baseRoute ++ "/:id", GetOneRoute);
      (POST, baseRoute, CreateRoute);
      (PUT, baseRoute ++ "/:id", UpdateRoute);
      (DELETE, baseRoute ++ "/:id", DeleteRoute) ]
  /\ NoDup ((fun r => (reg_verb r, reg_path r)) <$> registrations baseRoute o)
  /\ (forall r, r ∈ registrations baseRoute o ->
        reg_chain r
        = (default [] (mw_all (normalize_middleware o))
           ++ default [] (own_chain (normalize_middleware o) (reg_endpoint r)))%list)
  /\ (o = None -> forall r, r ∈ registrations baseRoute o -> reg_chain r = []).
Proof.
  assert (Hpath : baseRoute <> baseRoute ++ "/:id").
  { intros Heq. apply append_self_empty in Heq. discriminate. }
  split; [reflexivity | split; [| split]].
  - simpl. repeat (apply NoDup_cons; split;
      [rewrite ?elem_of_cons, elem_of_nil; intros Hin;
       repeat (destruct Hin as [Hin | Hin]); try done;
       injection Hin as Heq; done |]).
    apply NoDup_nil_2.
  - intros r Hin. unfold registrations in Hin.
    rewrite !elem_of_cons, elem_of_nil in Hin.
    destruct Hin as [-> | [-> | [-> | [-> | [-> | []]]]]]; reflexivity.
  - intros -> r Hin. unfold registrations in Hin.
    rewrite !elem_of_cons, elem_of_nil in Hin.
    destruct Hin as [-> | [-> | [-> | [-> | [-> | []]]]]]; reflexivity.
Qed.

Lemma registrations_spec_witness :
  let o : option (middleware_options string) :=
    Some {| mw_list := None; mw_getOne := None;
            mw_create := Some ["adminOnly"]; mw_update := None;
            mw_delete := Some ["adminOnly"; "audit"]; mw_all := Some ["auth"] |} in
  (fun r => (reg_endpoint r, reg_chain r)) <$> registrations "/users" o
  = [ (ListRoute, ["auth"]); (GetOneRoute, ["auth"]);
      (CreateRoute, ["auth"; "adminOnly"]); (UpdateRoute, ["auth"]);
      (DeleteRoute, ["auth"; "adminOnly"; "audit"]) ]
  /\ Forall (fun r => reg_chain r
                      = (["auth"] ++ default [] (own_chain (normalize_middleware o)
                                                           (reg_endpoint r)))%list)
       (registrations "/users" o).
Proof.
  intros o. split; [reflexivity|]. apply Forall_forall.
  apply (proj1 (proj2 (proj2 (registrations_spec "/users" o)))).
Defined.

